(** * GreasedLine builder: attribute-table completion and instance extension

    A shallow embedding of [CompleteGreasedLineWidthTable],
    [CompleteGreasedLineColorTable] and [CreateGreasedLine] of the
    GreasedLine mesh builder, and the properties of the width and color
    tables they produce.

    Representation of the JavaScript data:
    - an array of [number]s or [Color3]s handed to a function is a [list A];
      the entries are only copied, never computed with, so the element type
      is a parameter;
    - an array built by [push] may receive the result of an out-of-range
      read, which is [undefined]: it is a [list (option A)], [None] standing
      for [undefined];
    - point counts, array lengths and loop counters are integers ([Z]);
      [missingCount] of the width table can be a half ([Q]).  These
      quantities are exact in binary64 arithmetic (below 2^53), so exact
      arithmetic is what the program computes on them;
    - the stride of the EVEN distributions is a rounded quotient that is
      accumulated by rounded additions: it is a binary64 [float];
    - the distribution enums are TypeScript numeric enums: a policy is the
      number it stands for. *)

From Stdlib Require Import ZArith QArith Qround Lia.
From Stdlib Require Import PrimFloat SpecFloat FloatOps.
From stdpp Require Import base list.

Local Open Scope Z_scope.

(** ** JavaScript primitives used by the builder *)

Module JS.

(** [x < y] on exact numbers. *)
Definition ltb (x y : Q) : bool :=
  match (x ?= y)%Q with Lt => true | _ => false end.

(** [a[i]] for an integer [i]: [undefined] outside of the array. *)
Definition get {A} (a : list A) (i : Z) : option A :=
  if (0 <=? i) && (i <? Z.of_nat (length a)) then a !! Z.to_nat i else None.

(** [a[q]] for any exact number [q]: a number that is not an integer names
    no element, the read gives [undefined]. *)
Definition getQ {A} (a : list A) (q : Q) : option A :=
  if Qnum q mod Zpos (Qden q) =? 0 then get a (Qfloor q) else None.

(** [a.slice(0, e)] for an integer [e]; a negative [e] counts from the
    end of the array. *)
Definition slice0 {A} (a : list A) (e : Z) : list A :=
  let len := Z.of_nat (length a) in
  take (Z.to_nat (if e <? 0 then Z.max (len + e) 0 else Z.min e len)) a.

(** The values taken by [i] in
    [for (let i = start; i < bound; i += step)], for [step > 0]:
    [start + k * step] for the [k >= 0] below [(bound - start) / step]. *)
Definition for_lt (start : Z) (bound : Q) (step : Z) : list Z :=
  let count := Qceiling ((bound - inject_Z start) / inject_Z step) in
  (λ k, start + Z.of_nat k * step) <$> seq 0 (Z.to_nat count).

(** A [for] loop whose body pushes entries and updates a variable [s]
    declared outside of it; [xs] are the values of the loop counter. *)
Fixpoint loop {S B} (body : S → Z → S * list B) (s : S) (xs : list Z)
  : list B :=
  match xs with
  | [] => []
  | x :: xs' => let '(s', out) := body s x in out ++ loop body s' xs'
  end.

(** The number [z] as a binary64 value (exact below 2^53). *)
Definition of_Z (z : Z) : float :=
  SF2Prim (binary_normalize prec emax z 0 false).

(** [Math.floor].  A finite binary64 value is [±m * 2^e]; with [e >= 0] it
    is an integer already, and with [e < 0] it is below 2^53 in absolute
    value, so that its floor is exact. *)
Definition Math_floor (f : float) : float :=
  match Prim2SF f with
  | S754_finite s m e =>
      if 0 <=? e then f
      else
        let q := Z.shiftr (Zpos m) (- e) in
        let whole := Z.shiftl q (- e) =? Zpos m in
        of_Z (if s then (if whole then - q else - (q + 1)) else q)
  | _ => f
  end.

(** [a[f]] for a binary64 [f]: an element when [f] is a non-negative
    integer below the length, [undefined] otherwise (NaN and the
    infinities included). *)
Definition getF {A} (a : list A) (f : float) : option A :=
  match Prim2SF f with
  | S754_zero _ => get a 0
  | S754_finite false m e =>
      if 0 <=? e then get a (Z.shiftl (Zpos m) e)
      else
        let q := Z.shiftr (Zpos m) (- e) in
        if Z.shiftl q (- e) =? Zpos m then get a q else None
  | _ => None
  end.

End JS.

(** ** The distribution enums *)

Definition COLOR_DISTRIBUTION_NONE : Z := 0.
Definition COLOR_DISTRIBUTION_REPEAT : Z := 1.
Definition COLOR_DISTRIBUTION_EVEN : Z := 2.
Definition COLOR_DISTRIBUTION_START : Z := 3.
Definition COLOR_DISTRIBUTION_END : Z := 4.
Definition COLOR_DISTRIBUTION_START_END : Z := 5.

Definition WIDTH_DISTRIBUTION_NONE : Z := 0.
Definition WIDTH_DISTRIBUTION_REPEAT : Z := 1.
Definition WIDTH_DISTRIBUTION_EVEN : Z := 2.
Definition WIDTH_DISTRIBUTION_START : Z := 3.
Definition WIDTH_DISTRIBUTION_END : Z := 4.
Definition WIDTH_DISTRIBUTION_START_END : Z := 5.

(** ** CompleteGreasedLineWidthTable *)

Section WidthTable.
Context {A : Type}.

(** Two entries pushed by one loop iteration. *)
Definition push2 (x y : option A) : list (option A) := [x; y].

(** The two default widths are parameters with default value 1; the builder
    leaves them out and so passes 1 and 1. *)
Definition CompleteGreasedLineWidthTable
    (pointCount : Z) (widths : list A) (widthsDistribution : Z)
    (defaultWidthUpper defaultWidthLower : A) : list (option A) :=
  let length := Z.of_nat (length widths) in
  let missingCount : Q := (inject_Z pointCount - inject_Z length / 2)%Q in
  if JS.ltb missingCount 0 then
    Some <$> JS.slice0 widths (pointCount * 2)
  else if JS.ltb 0 missingCount then
    if widthsDistribution =? WIDTH_DISTRIBUTION_START_END then
      let halfCount := Qfloor (inject_Z length / 2) in
      (* start sector; [j] is the second variable of the loop *)
      JS.loop
        (λ j _, (j + 2, push2 (JS.get widths j) (JS.get widths (j + 1))))
        0 (JS.for_lt 0 (inject_Z (halfCount - 1)) 1)
      (* middle sector *)
      ++ (let widthL := JS.getQ widths (inject_Z halfCount / 2) in
          let widthU := JS.getQ widths (inject_Z halfCount / 2 + 1) in
          JS.for_lt 0 missingCount 1 ≫= λ _, push2 widthU widthL)
      (* end sector *)
      ++ (JS.for_lt halfCount (inject_Z length) 2 ≫= λ i,
            push2 (JS.get widths i) (JS.get widths (i + 1)))
    else if widthsDistribution =? WIDTH_DISTRIBUTION_START then
      (JS.for_lt 0 (inject_Z length) 2 ≫= λ i,
         push2 (JS.get widths i) (JS.get widths (i + 1)))
      ++ (JS.for_lt 0 missingCount 1 ≫= λ _,
            push2 (Some defaultWidthUpper) (Some defaultWidthLower))
    else if widthsDistribution =? WIDTH_DISTRIBUTION_END then
      (JS.for_lt 0 missingCount 1 ≫= λ _,
         push2 (Some defaultWidthUpper) (Some defaultWidthLower))
      ++ (JS.for_lt 0 (inject_Z length) 2 ≫= λ i,
            push2 (JS.get widths i) (JS.get widths (i + 1)))
    else if widthsDistribution =? WIDTH_DISTRIBUTION_REPEAT then
      JS.loop
        (λ i _, (if i + 2 =? length then 0 else i + 2,
                 push2 (JS.get widths i) (JS.get widths (i + 1))))
        0 (JS.for_lt 0 (inject_Z pointCount) 1)
    else if widthsDistribution =? WIDTH_DISTRIBUTION_EVEN then
      let widthsectorLength :=
        (JS.of_Z length / JS.of_Z ((pointCount - 1) * 2))%float in
      JS.loop
        (λ j _, let i := JS.Math_floor j in
                ((j + widthsectorLength)%float,
                 push2 (JS.getF widths i) (JS.getF widths (i + 1)%float)))
        0%float (JS.for_lt 0 (inject_Z pointCount) 1)
    else []
  else
    JS.for_lt 0 (inject_Z length) 1 ≫= λ i, [JS.get widths i].

End WidthTable.

(** ** CompleteGreasedLineColorTable *)

Section ColorTable.
Context {C : Type}.

Definition CompleteGreasedLineColorTable
    (pointCount : Z) (colors : list C) (colorDistribution : Z)
    (defaultColor : C) : list (option C) :=
  let length := Z.of_nat (length colors) in
  let missingCount := pointCount - length in
  if missingCount <? 0 then
    Some <$> JS.slice0 colors pointCount
  else if 0 <? missingCount then
    if colorDistribution =? COLOR_DISTRIBUTION_START_END then
      let halfCount := Qfloor (inject_Z length / 2) in
      (* start sector *)
      (JS.for_lt 0 (inject_Z halfCount) 1 ≫= λ i, [JS.get colors i])
      (* middle sector *)
      ++ (JS.for_lt 0 (inject_Z (missingCount - 1)) 1 ≫= λ _,
            [Some defaultColor])
      (* end sector *)
      ++ (JS.for_lt halfCount (inject_Z length) 1 ≫= λ i,
            [JS.get colors i])
    else if colorDistribution =? COLOR_DISTRIBUTION_START then
      (JS.for_lt 0 (inject_Z length) 1 ≫= λ i, [JS.get colors i])
      ++ (JS.for_lt 0 (inject_Z missingCount) 1 ≫= λ _,
            [Some defaultColor])
    else if colorDistribution =? COLOR_DISTRIBUTION_END then
      (JS.for_lt 0 (inject_Z (missingCount - 1)) 1 ≫= λ _,
         [Some defaultColor])
      ++ (JS.for_lt 0 (inject_Z length) 1 ≫= λ i, [JS.get colors i])
    else if colorDistribution =? COLOR_DISTRIBUTION_REPEAT then
      JS.loop
        (λ i _, (if i + 1 =? length then 0 else i + 1,
                 [JS.get colors i]))
        0 (JS.for_lt 0 (inject_Z pointCount) 1)
    else if colorDistribution =? COLOR_DISTRIBUTION_EVEN then
      let colorSectorLength :=
        (JS.of_Z length / JS.of_Z (pointCount - 1))%float in
      JS.loop
        (λ j _, let i := JS.Math_floor j in
                ((j + colorSectorLength)%float, [JS.getF colors i]))
        0%float (JS.for_lt 0 (inject_Z (pointCount - 1)) 1)
    else if colorDistribution =? COLOR_DISTRIBUTION_NONE then
      JS.for_lt 0 (inject_Z length) 1 ≫= λ i, [JS.get colors i]
    else []
  else
    JS.for_lt 0 (inject_Z pointCount) 1 ≫= λ i, [JS.get colors i].

End ColorTable.

(** ** The mesh instance and its material *)

(** The classes a material is tested against with [instanceof]. *)
Inductive MaterialClass := StandardMaterial | PBRMaterial | OtherMaterial.

Definition instanceof (m : option MaterialClass) (c : MaterialClass) : bool :=
  match m, c with
  | Some StandardMaterial, StandardMaterial => true
  | Some PBRMaterial, PBRMaterial => true
  | _, _ => false
  end.

(** A flat array of coordinates, three per point. *)
Definition Points : Type := list (float * float * float).

(** [points.length] of the flat array. *)
Definition flat_length (points : Points) : Z := 3 * Z.of_nat (length points).

Module GreasedLinePluginMaterial.

(** Modelled from the spec: the GreasedLinePluginMaterial class is not part
    of the builder.  It is the material collaborator, which holds the color
    table and exposes [updateColors(handle, newColorTable, deferred)];
    [updates] records the updates pushed to it, latest first. *)
Record t (Color3 : Type) := Build {
  colors : option (list (option Color3));
  updates : list (list (option Color3) * bool);
}.
Arguments Build {Color3}.
Arguments colors {Color3}.
Arguments updates {Color3}.

Definition setColors {Color3} (newColors : list (option Color3))
    (lazy : bool) (m : t Color3) : t Color3 :=
  Build (Some newColors) ((newColors, lazy) :: updates m).

End GreasedLinePluginMaterial.

Module GreasedLineMesh.

(** Modelled from the spec: the GreasedLineMesh class is not part of the
    builder.  It is the ShapeState: the current point sequence, the current
    width sequence, the deferred-recompute flag and a reference to the
    attached material, through which the color sequence is reached. *)
Record t (Color3 : Type) := Build {
  points : list Points;
  widths : option (list (option float));
  lazy : bool;
  material : option MaterialClass;
  greasedLineMaterial : option (GreasedLinePluginMaterial.t Color3);
}.
Arguments Build {Color3}.
Arguments points {Color3}.
Arguments widths {Color3}.
Arguments lazy {Color3}.
Arguments material {Color3}.
Arguments greasedLineMaterial {Color3}.

Definition isLazy {Color3} (m : t Color3) : bool := lazy m.

(** [instance.widths = w] *)
Definition set_widths {Color3} (w : list (option float)) (m : t Color3)
  : t Color3 :=
  Build (points m) (Some w) (lazy m) (material m) (greasedLineMaterial m).

(** [instance.material = c], with the plugin attached to the material. *)
Definition set_material {Color3} (c : MaterialClass)
    (p : GreasedLinePluginMaterial.t Color3) (m : t Color3) : t Color3 :=
  Build (points m) (widths m) (lazy m) (Some c) (Some p).

Definition set_greasedLineMaterial {Color3}
    (p : GreasedLinePluginMaterial.t Color3) (m : t Color3) : t Color3 :=
  Build (points m) (widths m) (lazy m) (material m) (Some p).

(** Modelled from the spec: [addPoints] appends the new normalized points
    to the existing point sequence. *)
Definition addPoints {Color3} (ps : list Points) (m : t Color3)
  : t Color3 :=
  Build (points m ++ ps) (widths m) (lazy m) (material m)
    (greasedLineMaterial m).

End GreasedLineMesh.

Module GreasedLineMeshBuilderOptions.

(** The options read by the builder; [points] is the result of
    [GreasedLineMesh.ConvertPoints], an array of flat coordinate arrays of
    whole points, and [None] is an option left [undefined]. *)
Record t (Color3 : Type) := Build {
  points : list Points;
  widths : option (list float);
  widthDistribution : option Z;
  lazy : bool;
  instance : option (GreasedLineMesh.t Color3);
}.
Arguments Build {Color3}.
Arguments points {Color3}.
Arguments widths {Color3}.
Arguments widthDistribution {Color3}.
Arguments lazy {Color3}.
Arguments instance {Color3}.

End GreasedLineMeshBuilderOptions.

Module GreasedLineMaterialBuilderOptions.

(** The material options read by the builder; the remaining ones (dash,
    resolution, visibility, ...) are handed to the plugin as they are. *)
Record t (Color3 : Type) := Build {
  createAndAssignMaterial : option bool;
  colorDistribution : option Z;
  materialType : option Z;
  color : option Color3;
  colors : option (list Color3);
}.
Arguments Build {Color3}.
Arguments createAndAssignMaterial {Color3}.
Arguments colorDistribution {Color3}.
Arguments materialType {Color3}.
Arguments color {Color3}.
Arguments colors {Color3}.

End GreasedLineMaterialBuilderOptions.

(** ** CreateGreasedLine *)

Section Builder.
Context {Color3 : Type}.
(** [GreasedLinePluginMaterial.DEFAULT_COLOR] and
    [GreasedLineMeshMaterialType.MATERIAL_TYPE_PBR], declared with the
    plugin material. *)
Variable DEFAULT_COLOR : Color3.
Variable MATERIAL_TYPE_PBR : Z.

(** The [length] counted over [allPoints] before the tables are
    completed. *)
Definition allPoints_length (allPoints : list Points) : Z :=
  match allPoints !! 0%nat with
  | Some _ =>
      foldl (λ length points, length + flat_length points / 3) 0 allPoints
  | None => 0
  end.

Definition CreateGreasedLine
    (options : GreasedLineMeshBuilderOptions.t Color3)
    (materialOptions : option (GreasedLineMaterialBuilderOptions.t Color3))
  : GreasedLineMesh.t Color3 :=
  let allPoints := GreasedLineMeshBuilderOptions.points options in
  let length := allPoints_length allPoints in
  let widthDistribution :=
    default WIDTH_DISTRIBUTION_START
      (GreasedLineMeshBuilderOptions.widthDistribution options) in
  let materialOptions :=
    default
      (GreasedLineMaterialBuilderOptions.Build
         None None None (Some DEFAULT_COLOR) None)
      materialOptions in
  let createAndAssignMaterial :=
    default true
      (GreasedLineMaterialBuilderOptions.createAndAssignMaterial
         materialOptions) in
  let colorDistribution :=
    default COLOR_DISTRIBUTION_START
      (GreasedLineMaterialBuilderOptions.colorDistribution materialOptions) in
  let widths :=
    CompleteGreasedLineWidthTable length
      (default [] (GreasedLineMeshBuilderOptions.widths options))
      widthDistribution 1%float 1%float in
  let colors :=
    match GreasedLineMaterialBuilderOptions.colors materialOptions with
    | Some colors =>
        Some (CompleteGreasedLineColorTable length colors colorDistribution
                (default DEFAULT_COLOR
                   (GreasedLineMaterialBuilderOptions.color
                      materialOptions)))
    | None => None
    end in
  let instance :=
    match GreasedLineMeshBuilderOptions.instance options with
    | None =>
        (* create new mesh if instance is not defined *)
        let instance :=
          GreasedLineMesh.Build allPoints (Some widths)
            (GreasedLineMeshBuilderOptions.lazy options) None None in
        if createAndAssignMaterial then
          let material :=
            if decide (GreasedLineMaterialBuilderOptions.materialType
                         materialOptions = Some MATERIAL_TYPE_PBR)
            then PBRMaterial else StandardMaterial in
          GreasedLineMesh.set_material material
            (GreasedLinePluginMaterial.Build colors []) instance
        else instance
    | Some instance =>
        (* update the data on the mesh instance *)
        let instance :=
          match GreasedLineMesh.widths instance with
          | Some currentWidths =>
              let newWidths := currentWidths ++ widths in
              GreasedLineMesh.set_widths newWidths instance
          | None => GreasedLineMesh.set_widths widths instance
          end in
        GreasedLineMesh.addPoints allPoints instance
    end in
  (* add colors *)
  match colors, GreasedLineMeshBuilderOptions.instance options with
  | Some colors, Some _ =>
      if instanceof (GreasedLineMesh.material instance) StandardMaterial
         || instanceof (GreasedLineMesh.material instance) PBRMaterial
      then
        match GreasedLineMesh.greasedLineMaterial instance with
        | Some greasedLineMaterial =>
            match GreasedLinePluginMaterial.colors greasedLineMaterial with
            | Some currentColors =>
                let newColors := currentColors ++ colors in
                GreasedLineMesh.set_greasedLineMaterial
                  (GreasedLinePluginMaterial.setColors newColors
                     (GreasedLineMesh.isLazy instance) greasedLineMaterial)
                  instance
            | None => instance
            end
        | None => instance
        end
      else instance
  | _, _ => instance
  end.

End Builder.

(** ** Vocabulary of the properties *)

(** A completed table is defined when none of its entries is [undefined]. *)
Definition all_defined {A} (table : list (option A)) : Prop :=
  Forall is_Some table.

(** The colors of the examples, by their red, green and blue components. *)
Inductive Color3 := RGB (r g b : float).

Definition Red : Color3 := RGB 1 0 0.
Definition Green : Color3 := RGB 0 1 0.
Definition White : Color3 := RGB 1 1 1.

(** ** Exact numbers *)

Lemma ltb_lt (x y : Q) : JS.ltb x y = true ↔ (x < y)%Q.
Proof.
  unfold JS.ltb. rewrite Qlt_alt. destruct (x ?= y)%Q; split; congruence.
Qed.

Lemma missingCount_neg (pointCount length : Z) :
  JS.ltb (inject_Z pointCount - inject_Z length / 2) 0 = true
  ↔ 2 * pointCount < length.
Proof.
  rewrite ltb_lt. unfold Qlt, Qminus, Qdiv, Qplus, Qmult, Qopp, Qinv, inject_Z.
  simpl. lia.
Qed.

Lemma missingCount_pos (pointCount length : Z) :
  JS.ltb 0 (inject_Z pointCount - inject_Z length / 2) = true
  ↔ length < 2 * pointCount.
Proof.
  rewrite ltb_lt. unfold Qlt, Qminus, Qdiv, Qplus, Qmult, Qopp, Qinv, inject_Z.
  simpl. lia.
Qed.

Lemma count_integer_bound (start bound : Z) :
  Qceiling ((inject_Z bound - inject_Z start) / inject_Z 1) = bound - start.
Proof.
  unfold Qceiling, Qfloor, Qminus, Qdiv, Qplus, Qmult, Qopp, Qinv, inject_Z.
  simpl. rewrite ?Pos.mul_1_l, ?Pos.mul_1_r, Z.div_1_r. lia.
Qed.

Lemma count_step_two (bound : Z) :
  Qceiling ((inject_Z bound - inject_Z 0) / inject_Z 2) = (bound + 1) / 2.
Proof.
  unfold Qceiling, Qfloor, Qminus, Qdiv, Qplus, Qmult, Qopp, Qinv, inject_Z.
  simpl. rewrite ?Pos.mul_1_l, ?Pos.mul_1_r. Z.div_mod_to_equations. lia.
Qed.

Lemma count_missing (pointCount length : Z) :
  Qceiling ((inject_Z pointCount - inject_Z length / 2 - inject_Z 0)
            / inject_Z 1)
  = pointCount - length / 2.
Proof.
  unfold Qceiling, Qfloor, Qminus, Qdiv, Qplus, Qmult, Qopp, Qinv, inject_Z.
  simpl. rewrite ?Pos.mul_1_l, ?Pos.mul_1_r. Z.div_mod_to_equations. lia.
Qed.

Lemma Qceiling_iff (q : Q) (z : Z) :
  Qceiling q = z ↔ (inject_Z (z - 1) < q)%Q ∧ (q <= inject_Z z)%Q.
Proof.
  split.
  - intros <-. split; [apply Qceiling_lt | apply Qle_ceiling].
  - intros [Hlo Hhi].
    pose proof (Qceiling_lt q) as Hlt. pose proof (Qle_ceiling q) as Hle.
    assert (z - 1 < Qceiling q).
    { rewrite Zlt_Qlt. eapply Qlt_le_trans; eauto. }
    assert (Qceiling q - 1 < z).
    { rewrite Zlt_Qlt. eapply Qlt_le_trans; eauto. }
    lia.
Qed.

Lemma Qceiling_pred (q : Q) : Qceiling (q - 1) = Qceiling q - 1.
Proof.
  destruct q as [n d]. unfold Qceiling, Qfloor, Qminus, Qplus, Qopp. simpl.
  rewrite Pos.mul_1_r. Z.div_mod_to_equations. nia.
Qed.

Lemma Qceiling_nonpos (q : Q) : (q <= 0)%Q → Qceiling q <= 0.
Proof. intros H. apply (Qceiling_resp_le q 0) in H. exact H. Qed.

Lemma Qceiling_pos (q : Q) : (0 < q)%Q → 0 < Qceiling q.
Proof.
  intros H. pose proof (Qle_ceiling q) as Hle.
  rewrite Zlt_Qlt. eapply Qlt_le_trans; eauto.
Qed.

(** [JS.for_lt] is the [for] loop: the counter takes the value [start] and
    the loop goes on from [start + step] when [start < bound], and the loop
    ends otherwise. *)
Lemma for_lt_unfold (start : Z) (bound : Q) (step : Z) :
  0 < step →
  JS.for_lt start bound step =
    if JS.ltb (inject_Z start) bound
    then start :: JS.for_lt (start + step) bound step
    else [].
Proof.
  intros Hstep. unfold JS.for_lt.
  assert (Hs : (0 < inject_Z step)%Q) by (rewrite <- (Zlt_Qlt 0); exact Hstep).
  assert (Hne : ¬ (inject_Z step == 0)%Q).
  { intros E. rewrite E in Hs. exact (Qlt_irrefl 0 Hs). }
  destruct (JS.ltb (inject_Z start) bound) eqn:E.
  - apply ltb_lt in E.
    assert (Hq : (0 < (bound - inject_Z start) / inject_Z step)%Q).
    { apply Qlt_shift_div_l; [exact Hs|]. ring_simplify.
      apply Qplus_lt_l with (z := inject_Z start). ring_simplify. exact E. }
    apply Qceiling_pos in Hq.
    assert (Hnext : Qceiling ((bound - inject_Z (start + step)) / inject_Z step)
                    = Qceiling ((bound - inject_Z start) / inject_Z step) - 1).
    { rewrite <- Qceiling_pred. apply Qceiling_comp.
      rewrite inject_Z_plus. field. exact Hne. }
    rewrite Hnext.
    set (c := Qceiling ((bound - inject_Z start) / inject_Z step)) in *.
    replace (Z.to_nat c) with (S (Z.to_nat (c - 1))) by lia.
    cbn [seq fmap list_fmap]. f_equal; [lia|].
    rewrite <- fmap_S_seq, <- list_fmap_compose.
    apply list_fmap_ext. intros _ k _. simpl. lia.
  - assert (Hle : (bound <= inject_Z start)%Q).
    { apply Qnot_lt_le. intros Hlt. apply ltb_lt in Hlt. congruence. }
    assert (Hq : ((bound - inject_Z start) / inject_Z step <= 0)%Q).
    { apply Qle_shift_div_r; [exact Hs|]. ring_simplify.
      apply Qplus_le_l with (z := inject_Z start). ring_simplify. exact Hle. }
    apply Qceiling_nonpos in Hq.
    replace (Z.to_nat _) with 0%nat by lia. reflexivity.
Qed.

(** ** Arrays and loops *)

Lemma get_of_nat {A} (a : list A) (n : nat) : JS.get a (Z.of_nat n) = a !! n.
Proof.
  unfold JS.get. destruct (_ && _) eqn:E.
  - by rewrite Nat2Z.id.
  - symmetry. apply lookup_ge_None. apply andb_false_iff in E. lia.
Qed.

Lemma for_lt_counter (n : Z) :
  JS.for_lt 0 (inject_Z n) 1 = Z.of_nat <$> seq 0 (Z.to_nat n).
Proof.
  unfold JS.for_lt. rewrite count_integer_bound, Z.sub_0_r.
  apply list_fmap_ext. intros _ k _. lia.
Qed.

Lemma length_for_lt (start : Z) (bound : Q) (step : Z) :
  length (JS.for_lt start bound step)
  = Z.to_nat (Qceiling ((bound - inject_Z start) / inject_Z step)).
Proof. unfold JS.for_lt. by rewrite length_fmap, length_seq. Qed.

Lemma length_bind_const {X B} (f : X → list B) (k : nat) (l : list X) :
  (∀ x, length (f x) = k) → length (l ≫= f) = (k * length l)%nat.
Proof.
  intros Hf. induction l as [|x l IH]; [simpl; lia|].
  rewrite bind_cons, length_app, IH, Hf. simpl. lia.
Qed.

Lemma length_loop {S B} (body : S → Z → S * list B) (k : nat) (s : S)
    (xs : list Z) :
  (∀ s x, length (body s x).2 = k) →
  length (JS.loop body s xs) = (k * length xs)%nat.
Proof.
  intros Hbody. revert s. induction xs as [|x xs IH]; intros s; simpl; [lia|].
  specialize (Hbody s x). destruct (body s x) as [s' out]. simpl in Hbody.
  rewrite length_app, IH, Hbody. lia.
Qed.

(** Copying the first [n] entries one by one gives the prefix of length
    [n]. *)
Lemma copy_prefix {A} (a : list A) (n : nat) :
  (n ≤ length a)%nat →
  (Z.of_nat <$> seq 0 n) ≫= (λ i, [JS.get a i]) = Some <$> take n a.
Proof.
  induction n as [|n IH]; intros Hn; [done|].
  rewrite seq_S, fmap_app, bind_app, IH by lia. simpl.
  destruct (lookup_lt_is_Some_2 a n) as [x Hx]; [lia|].
  rewrite (take_S_r _ _ _ Hx), fmap_app, get_of_nat, Hx. done.
Qed.

Lemma copy_all {A} (a : list A) :
  JS.for_lt 0 (inject_Z (Z.of_nat (length a))) 1 ≫= (λ i, [JS.get a i])
  = Some <$> a.
Proof.
  rewrite for_lt_counter, Nat2Z.id, copy_prefix by lia. by rewrite firstn_all.
Qed.

(** ** The width table *)

Lemma width_table_long {A} (pointCount : Z) (widths : list A)
    (widthsDistribution : Z) (defaultWidthUpper defaultWidthLower : A) :
  2 * pointCount < Z.of_nat (length widths) →
  CompleteGreasedLineWidthTable pointCount widths widthsDistribution
    defaultWidthUpper defaultWidthLower
  = Some <$> JS.slice0 widths (pointCount * 2).
Proof.
  intros Hlen. unfold CompleteGreasedLineWidthTable.
  by rewrite (proj2 (missingCount_neg _ _) Hlen).
Qed.

Lemma width_table_exact {A} (pointCount : Z) (widths : list A)
    (widthsDistribution : Z) (defaultWidthUpper defaultWidthLower : A) :
  Z.of_nat (length widths) = 2 * pointCount →
  CompleteGreasedLineWidthTable pointCount widths widthsDistribution
    defaultWidthUpper defaultWidthLower
  = Some <$> widths.
Proof.
  intros Hlen. unfold CompleteGreasedLineWidthTable.
  destruct (JS.ltb (_ - _) 0) eqn:E1; [apply missingCount_neg in E1; lia|].
  destruct (JS.ltb 0 _) eqn:E2; [apply missingCount_pos in E2; lia|].
  apply copy_all.
Qed.

(** With entries missing, the distribution selects the branch. *)
Lemma width_table_short {A} (pointCount : Z) (widths : list A)
    (widthsDistribution : Z) (defaultWidthUpper defaultWidthLower : A) :
  Z.of_nat (length widths) < 2 * pointCount →
  JS.ltb (inject_Z pointCount - inject_Z (Z.of_nat (length widths)) / 2) 0
  = false
  ∧ JS.ltb 0 (inject_Z pointCount - inject_Z (Z.of_nat (length widths)) / 2)
    = true.
Proof.
  intros Hlen. split; [|by apply missingCount_pos].
  destruct (JS.ltb (_ - _) 0) eqn:E1; [apply missingCount_neg in E1; lia|done].
Qed.

(** C5. When the width table holds more than [pointCount] pairs
    ([missingCount < 0]), the result is the first [2 * pointCount] entries of
    the input, whatever the distribution. *)
Theorem width_table_truncation {A} (pointCount : Z) (widths : list A)
    (widthsDistribution : Z) (defaultWidthUpper defaultWidthLower : A) :
  0 <= pointCount →
  2 * pointCount < Z.of_nat (length widths) →
  CompleteGreasedLineWidthTable pointCount widths widthsDistribution
    defaultWidthUpper defaultWidthLower
  = Some <$> take (Z.to_nat (2 * pointCount)) widths.
Proof.
  intros Hpc Hlen. rewrite width_table_long by done. unfold JS.slice0.
  destruct (pointCount * 2 <? 0) eqn:E; [lia|].
  do 2 f_equal. lia.
Qed.

(** The example of C5: a table of three pairs cut down to two points. *)
Lemma width_table_truncation_witness :
  CompleteGreasedLineWidthTable 2 [1; 1; 2; 2; 3; 3]%float
    WIDTH_DISTRIBUTION_EVEN 1%float 1%float
  = [Some 1; Some 1; Some 2; Some 2]%float.
Proof.
  rewrite (width_table_truncation 2 [1; 1; 2; 2; 3; 3]%float
             WIDTH_DISTRIBUTION_EVEN 1%float 1%float); [reflexivity | lia |].
  simpl. lia.
Defined.

Example width_table_truncation_any_policy (widthsDistribution : Z) :
  CompleteGreasedLineWidthTable 2 [1; 1; 2; 2; 3; 3]%float
    widthsDistribution 1%float 1%float
  = [Some 1; Some 1; Some 2; Some 2]%float.
Proof. reflexivity. Qed.

(** C6. When the width table holds exactly [pointCount] pairs
    ([missingCount == 0]), the result is the input, entry for entry,
    whatever the distribution. *)
Theorem width_table_unchanged {A} (pointCount : Z) (widths : list A)
    (widthsDistribution : Z) (defaultWidthUpper defaultWidthLower : A) :
  Z.of_nat (length widths) = 2 * pointCount →
  CompleteGreasedLineWidthTable pointCount widths widthsDistribution
    defaultWidthUpper defaultWidthLower
  = Some <$> widths.
Proof.
  apply width_table_exact.
Qed.

Lemma width_table_unchanged_witness :
  CompleteGreasedLineWidthTable 2 [1; 2; 3; 4]%float
    WIDTH_DISTRIBUTION_START_END 1%float 1%float
  = [Some 1; Some 2; Some 3; Some 4]%float.
Proof.
  apply (width_table_unchanged 2 [1; 2; 3; 4]%float
           WIDTH_DISTRIBUTION_START_END 1%float 1%float).
  reflexivity.
Defined.

(** C10. When entries are missing ([missingCount > 0]) and the distribution
    is NONE, or any value other than the five that have a branch, no entry is
    pushed: the result is empty. *)
Theorem width_table_none_is_empty {A} (pointCount : Z) (widths : list A)
    (widthsDistribution : Z) (defaultWidthUpper defaultWidthLower : A) :
  Z.of_nat (length widths) < 2 * pointCount →
  widthsDistribution ≠ WIDTH_DISTRIBUTION_START_END →
  widthsDistribution ≠ WIDTH_DISTRIBUTION_START →
  widthsDistribution ≠ WIDTH_DISTRIBUTION_END →
  widthsDistribution ≠ WIDTH_DISTRIBUTION_REPEAT →
  widthsDistribution ≠ WIDTH_DISTRIBUTION_EVEN →
  CompleteGreasedLineWidthTable pointCount widths widthsDistribution
    defaultWidthUpper defaultWidthLower
  = [].
Proof.
  intros Hlen H1 H2 H3 H4 H5. unfold CompleteGreasedLineWidthTable.
  destruct (width_table_short pointCount widths widthsDistribution
              defaultWidthUpper defaultWidthLower Hlen) as [-> ->].
  apply Z.eqb_neq in H1, H2, H3, H4, H5. by rewrite H1, H2, H3, H4, H5.
Qed.

Lemma width_table_none_is_empty_witness :
  CompleteGreasedLineWidthTable 3 [5; 5]%float WIDTH_DISTRIBUTION_NONE
    1%float 1%float
  = [].
Proof.
  apply (width_table_none_is_empty 3 [5; 5]%float WIDTH_DISTRIBUTION_NONE
           1%float 1%float); [simpl; lia | discriminate..].
Defined.

Lemma length_pairs_of (widths_length : Z) {A} (f : Z → list (option A)) :
  (∀ i, length (f i) = 2%nat) →
  Z.of_nat (length (JS.for_lt 0 (inject_Z widths_length) 2 ≫= f))
  = 2 * Z.max 0 ((widths_length + 1) / 2).
Proof.
  intros Hf. rewrite (length_bind_const f 2) by done.
  rewrite length_for_lt, count_step_two. lia.
Qed.

Lemma length_missing_pairs (pointCount widths_length : Z) {A}
    (f : Z → list (option A)) :
  (∀ i, length (f i) = 2%nat) →
  Z.of_nat
    (length
       (JS.for_lt 0 (inject_Z pointCount - inject_Z widths_length / 2) 1 ≫= f))
  = 2 * Z.max 0 (pointCount - widths_length / 2).
Proof.
  intros Hf. rewrite (length_bind_const f 2) by done.
  rewrite length_for_lt, count_missing. lia.
Qed.

(** C1, as amended.  For [pointCount >= 0] the completed width table has
    exactly [2 * pointCount] entries when no entry is missing (any
    distribution), under REPEAT and EVEN for every width table, and under
    START and END for a width table of whole pairs. *)
Theorem width_table_length {A} (pointCount : Z) (widths : list A)
    (widthsDistribution : Z) (defaultWidthUpper defaultWidthLower : A) :
  0 <= pointCount →
  2 * pointCount <= Z.of_nat (length widths)
  ∨ widthsDistribution = WIDTH_DISTRIBUTION_REPEAT
  ∨ widthsDistribution = WIDTH_DISTRIBUTION_EVEN
  ∨ (widthsDistribution = WIDTH_DISTRIBUTION_START
     ∨ widthsDistribution = WIDTH_DISTRIBUTION_END)
    ∧ Z.Even (Z.of_nat (length widths)) →
  Z.of_nat
    (length
       (CompleteGreasedLineWidthTable pointCount widths widthsDistribution
          defaultWidthUpper defaultWidthLower))
  = 2 * pointCount.
Proof.
  intros Hpc Hcase.
  destruct (Z.lt_trichotomy (2 * pointCount) (Z.of_nat (length widths)))
    as [Hlong | [Hexact | Hshort]].
  - rewrite width_table_long by done. unfold JS.slice0.
    destruct (pointCount * 2 <? 0) eqn:E; [lia|].
    rewrite length_fmap, length_take. lia.
  - rewrite width_table_exact by done. rewrite length_fmap. lia.
  - unfold CompleteGreasedLineWidthTable.
    destruct (width_table_short pointCount widths widthsDistribution
                defaultWidthUpper defaultWidthLower Hshort) as [-> ->].
    destruct Hcase as [? | [-> | [-> | [[-> | ->] Heven]]]]; [lia|..]; simpl.
    + rewrite (length_loop _ 2) by done.
      rewrite length_for_lt, count_integer_bound. lia.
    + rewrite (length_loop _ 2) by done.
      rewrite length_for_lt, count_integer_bound. lia.
    + rewrite length_app, Nat2Z.inj_add.
      rewrite length_pairs_of, length_missing_pairs by done.
      destruct Heven as [k Hk]. rewrite Hk in *.
      replace ((2 * k + 1) / 2) with k by (Z.div_mod_to_equations; lia).
      replace (2 * k / 2) with k by (Z.div_mod_to_equations; lia). lia.
    + rewrite length_app, Nat2Z.inj_add.
      rewrite length_pairs_of, length_missing_pairs by done.
      destruct Heven as [k Hk]. rewrite Hk in *.
      replace ((2 * k + 1) / 2) with k by (Z.div_mod_to_equations; lia).
      replace (2 * k / 2) with k by (Z.div_mod_to_equations; lia). lia.
Qed.

Lemma width_table_length_witness :
  Z.of_nat
    (length
       (CompleteGreasedLineWidthTable 3 [5; 5]%float WIDTH_DISTRIBUTION_START
          1%float 1%float))
  = 2 * 3.
Proof.
  apply (width_table_length 3 [5; 5]%float WIDTH_DISTRIBUTION_START
           1%float 1%float); [lia|].
  right. right. right. split; [left; reflexivity|]. exists 1. reflexivity.
Defined.

(** C1, as stated, fails: with an entry missing and the NONE distribution
    the table of three points is empty. *)
Lemma width_table_length_counterexample :
  Z.of_nat
    (length
       (CompleteGreasedLineWidthTable 3 [5; 5]%float WIDTH_DISTRIBUTION_NONE
          1%float 1%float))
  ≠ 2 * 3.
Proof. vm_compute. discriminate. Qed.

(** The START_END distribution of a table of three pairs over four points
    pushes five pairs. *)
Example width_table_start_end_three_pairs :
  CompleteGreasedLineWidthTable 4 [1; 1; 2; 2; 3; 3]%float
    WIDTH_DISTRIBUTION_START_END 1%float 1%float
  = [Some 1; Some 1; Some 2; Some 2; None; None; Some 2; Some 3; Some 3;
     None]%float.
Proof. reflexivity. Qed.

(** The START distribution of the spec's example. *)
Example width_table_start_fill :
  CompleteGreasedLineWidthTable 3 [5; 5]%float WIDTH_DISTRIBUTION_START
    1%float 1%float
  = [Some 5; Some 5; Some 1; Some 1; Some 1; Some 1]%float.
Proof. reflexivity. Qed.

(** ** Binary64 arithmetic *)

Example Math_floor_values :
  (JS.Math_floor 2.5 = 2 ∧ JS.Math_floor (-2.5) = -3
   ∧ JS.Math_floor (-0.25) = -1 ∧ JS.Math_floor 0.75 = 0
   ∧ JS.Math_floor 7 = 7 ∧ JS.Math_floor nan = nan
   ∧ JS.Math_floor infinity = infinity)%float.
Proof. repeat split; reflexivity. Qed.

Example getF_values :
  (JS.getF [Red; Green] 1 = Some Green ∧ JS.getF [Red; Green] 0.5 = None
   ∧ JS.getF [Red; Green] 2 = None ∧ JS.getF [Red; Green] (-1) = None
   ∧ JS.getF [Red; Green] nan = None
   ∧ JS.getF [Red; Green] infinity = None)%float.
Proof. repeat split; reflexivity. Qed.

(** ** The color table *)

Lemma color_table_long {C} (pointCount : Z) (colors : list C)
    (colorDistribution : Z) (defaultColor : C) :
  pointCount < Z.of_nat (length colors) →
  CompleteGreasedLineColorTable pointCount colors colorDistribution
    defaultColor
  = Some <$> JS.slice0 colors pointCount.
Proof.
  intros Hlen. unfold CompleteGreasedLineColorTable.
  destruct (_ - _ <? 0) eqn:E; [done|lia].
Qed.

Lemma color_table_exact {C} (pointCount : Z) (colors : list C)
    (colorDistribution : Z) (defaultColor : C) :
  Z.of_nat (length colors) = pointCount →
  CompleteGreasedLineColorTable pointCount colors colorDistribution
    defaultColor
  = Some <$> colors.
Proof.
  intros <-. unfold CompleteGreasedLineColorTable.
  destruct (_ - _ <? 0) eqn:E1; [lia|].
  destruct (0 <? _ - _) eqn:E2; [lia|].
  apply copy_all.
Qed.

Lemma color_table_short {C} (pointCount : Z) (colors : list C) :
  Z.of_nat (length colors) < pointCount →
  (pointCount - Z.of_nat (length colors) <? 0) = false
  ∧ (0 <? pointCount - Z.of_nat (length colors)) = true.
Proof. lia. Qed.

(** A loop that pushes the same entry at every iteration. *)
Lemma fill_loop {B} (n : Z) (x : B) :
  JS.for_lt 0 (inject_Z n) 1 ≫= (λ _, [x]) = replicate (Z.to_nat n) x.
Proof.
  rewrite for_lt_counter. generalize (Z.to_nat n) as k. intros k.
  generalize 0%nat as s. induction k as [|k IH]; intros s; [done|].
  cbn [seq fmap list_fmap replicate]. rewrite bind_cons. simpl.
  f_equal. apply IH.
Qed.

(** What END does when colors are missing: one default entry fewer than
    are missing, then the colors. *)
Lemma color_table_end {C} (pointCount : Z) (colors : list C)
    (defaultColor : C) :
  Z.of_nat (length colors) < pointCount →
  CompleteGreasedLineColorTable pointCount colors COLOR_DISTRIBUTION_END
    defaultColor
  = replicate (Z.to_nat (pointCount - Z.of_nat (length colors) - 1))
      (Some defaultColor)
    ++ (Some <$> colors).
Proof.
  intros Hlen. unfold CompleteGreasedLineColorTable.
  destruct (color_table_short pointCount colors Hlen) as [-> ->]. simpl.
  by rewrite fill_loop, copy_all.
Qed.

Lemma repeat_next_index (s length : nat) :
  (0 < length)%nat →
  (if Z.of_nat (s mod length) + 1 =? Z.of_nat length
   then 0 else Z.of_nat (s mod length) + 1)
  = Z.of_nat (S s mod length).
Proof.
  intros Hlen.
  pose proof (Nat.div_mod_eq s length) as Hs.
  pose proof (Nat.mod_upper_bound s length) as Hr.
  destruct (_ =? _) eqn:E.
  - change 0 with (Z.of_nat 0). f_equal.
    apply (Nat.mod_unique _ _ (S (s / length))); nia.
  - rewrite <- (Nat2Z.inj_add _ 1). f_equal.
    apply (Nat.mod_unique _ _ (s / length)); nia.
Qed.

Lemma color_repeat_loop {C} (colors : list C) (n s : nat) :
  colors ≠ [] →
  JS.loop
    (λ i _, (if i + 1 =? Z.of_nat (length colors) then 0 else i + 1,
             [JS.get colors i]))
    (Z.of_nat (s mod length colors)) (Z.of_nat <$> seq s n)
  = (λ x, colors !! (x mod length colors)%nat) <$> seq s n.
Proof.
  intros Hne. assert (0 < length colors)%nat by (destruct colors; simpl; [done|lia]).
  revert s. induction n as [|n IH]; intros s; [done|].
  cbn [seq fmap list_fmap JS.loop].
  rewrite get_of_nat, repeat_next_index by done. simpl. f_equal. apply IH.
Qed.

(** C7. With colors missing, REPEAT reads the colors cyclically: slot [x] of
    the [pointCount] slots holds the color of index [x mod colors.length]. *)
Theorem color_table_repeat {C} (pointCount : Z) (colors : list C)
    (defaultColor : C) :
  colors ≠ [] →
  Z.of_nat (length colors) < pointCount →
  CompleteGreasedLineColorTable pointCount colors COLOR_DISTRIBUTION_REPEAT
    defaultColor
  = (λ x, colors !! (x mod length colors)%nat) <$> seq 0 (Z.to_nat pointCount).
Proof.
  intros Hne Hlen. unfold CompleteGreasedLineColorTable.
  destruct (color_table_short pointCount colors Hlen) as [-> ->]. simpl.
  rewrite for_lt_counter.
  rewrite <- (color_repeat_loop colors _ 0 Hne).
  by rewrite Nat.Div0.mod_0_l.
Qed.

(** The example of C7: two colors over five points. *)
Lemma color_table_repeat_witness :
  CompleteGreasedLineColorTable 5 [Red; Green] COLOR_DISTRIBUTION_REPEAT White
  = [Some Red; Some Green; Some Red; Some Green; Some Red].
Proof.
  rewrite (color_table_repeat 5 [Red; Green] White);
    [reflexivity | discriminate | simpl; lia].
Defined.

Lemma halfCount_div (length : Z) : Qfloor (inject_Z length / 2) = length / 2.
Proof.
  unfold Qfloor, Qdiv, Qmult, Qinv, inject_Z. simpl.
  rewrite ?Pos.mul_1_l, ?Pos.mul_1_r. Z.div_mod_to_equations. lia.
Qed.

(** With no color missing, or under START and REPEAT, the table has one
    entry per point. *)
Lemma color_table_length_full {C} (pointCount : Z) (colors : list C)
    (colorDistribution : Z) (defaultColor : C) :
  0 <= pointCount →
  pointCount <= Z.of_nat (length colors)
  ∨ colorDistribution = COLOR_DISTRIBUTION_START
  ∨ colorDistribution = COLOR_DISTRIBUTION_REPEAT →
  Z.of_nat
    (length
       (CompleteGreasedLineColorTable pointCount colors colorDistribution
          defaultColor))
  = pointCount.
Proof.
  intros Hpc Hcase.
  destruct (Z.lt_trichotomy pointCount (Z.of_nat (length colors)))
    as [Hlong | [Hexact | Hshort]].
  - rewrite color_table_long by done. unfold JS.slice0.
    destruct (pointCount <? 0) eqn:E; [lia|].
    rewrite length_fmap, length_take. lia.
  - rewrite color_table_exact by done. rewrite length_fmap. lia.
  - unfold CompleteGreasedLineColorTable.
    destruct (color_table_short pointCount colors Hshort) as [-> ->].
    destruct Hcase as [? | [-> | ->]]; [lia|..]; simpl.
    + rewrite copy_all, fill_loop, length_app, length_fmap, length_replicate.
      lia.
    + rewrite (length_loop _ 1) by done.
      rewrite length_for_lt, count_integer_bound. lia.
Qed.

(** With colors missing, END, START_END and EVEN push one entry fewer than
    there are points. *)
Lemma color_table_length_short {C} (pointCount : Z) (colors : list C)
    (colorDistribution : Z) (defaultColor : C) :
  Z.of_nat (length colors) < pointCount →
  colorDistribution = COLOR_DISTRIBUTION_END
  ∨ colorDistribution = COLOR_DISTRIBUTION_START_END
  ∨ colorDistribution = COLOR_DISTRIBUTION_EVEN →
  Z.of_nat
    (length
       (CompleteGreasedLineColorTable pointCount colors colorDistribution
          defaultColor))
  = pointCount - 1.
Proof.
  intros Hshort Hcase. unfold CompleteGreasedLineColorTable.
  destruct (color_table_short pointCount colors Hshort) as [-> ->].
  destruct Hcase as [-> | [-> | ->]].
  - simpl.
    rewrite copy_all, fill_loop, length_app, length_fmap, length_replicate.
    lia.
  - change (COLOR_DISTRIBUTION_START_END =? COLOR_DISTRIBUTION_START_END)
      with true.
    cbv beta iota zeta.
    rewrite halfCount_div, fill_loop, !length_app, length_replicate.
    rewrite !(length_bind_const _ 1) by done.
    rewrite !length_for_lt, !count_integer_bound.
    Z.div_mod_to_equations. lia.
  - simpl. rewrite (length_loop _ 1) by done.
    rewrite length_for_lt, count_integer_bound. lia.
Qed.

(** C2, on the code: one color over three points.  END, START_END and EVEN
    return two entries, not three. *)
Theorem color_table_one_entry_short :
  CompleteGreasedLineColorTable 3 [Red] COLOR_DISTRIBUTION_END White
  = [Some White; Some Red]
  ∧ CompleteGreasedLineColorTable 3 [Red] COLOR_DISTRIBUTION_START_END White
    = [Some White; Some Red]
  ∧ CompleteGreasedLineColorTable 3 [Red] COLOR_DISTRIBUTION_EVEN White
    = [Some Red; Some Red].
Proof. repeat split; reflexivity. Qed.

(** The sibling branch START fills all three slots. *)
Example color_table_start_fill :
  CompleteGreasedLineColorTable 3 [Red] COLOR_DISTRIBUTION_START White
  = [Some Red; Some White; Some White].
Proof. reflexivity. Qed.

(** C3, on the code: with two colors missing, END pushes one default color
    before the existing one, not two. *)
Theorem color_table_end_one_default :
  CompleteGreasedLineColorTable 3 [Red] COLOR_DISTRIBUTION_END White
  = replicate 1 (Some White) ++ [Some Red].
Proof. reflexivity. Qed.

(** C4, as amended.  For a single point under EVEN the stride is never read:
    the width table is the pair [widths[0]], [widths[1]], undefined where the
    input has no such entry, and the color table is the first color, if
    any. *)
Theorem even_single_point {A C} (widths : list A)
    (defaultWidthUpper defaultWidthLower : A) (colors : list C)
    (defaultColor : C) :
  CompleteGreasedLineWidthTable 1 widths WIDTH_DISTRIBUTION_EVEN
    defaultWidthUpper defaultWidthLower
  = [widths !! 0%nat; widths !! 1%nat]
  ∧ CompleteGreasedLineColorTable 1 colors COLOR_DISTRIBUTION_EVEN
      defaultColor
    = Some <$> take 1 colors.
Proof.
  split.
  - destruct widths as [|a [|b [|c l]]]; try reflexivity.
    rewrite width_table_long by (simpl length; lia).
    unfold JS.slice0. change (1 * 2 <? 0) with false. cbv iota zeta.
    simpl length. replace (Z.to_nat _) with 2%nat by lia. reflexivity.
  - destruct colors as [|a [|b l]]; try reflexivity.
    rewrite color_table_long by (simpl length; lia).
    unfold JS.slice0. change (1 <? 0) with false. cbv iota zeta.
    simpl length. replace (Z.to_nat _) with 1%nat by lia. reflexivity.
Qed.

(** C4, as stated, fails: the width table completed for a single point from
    an empty input holds two undefined entries. *)
Lemma even_single_point_counterexample :
  ¬ all_defined
      (CompleteGreasedLineWidthTable 1 ([] : list float)
         WIDTH_DISTRIBUTION_EVEN 1%float 1%float).
Proof.
  change (¬ all_defined [None; None : option float]).
  intros H. apply Forall_inv in H. destruct H as [x Hx]. discriminate.
Qed.

(** ** Extending an instance *)

(** The count is the number of points of the batch. *)
Lemma allPoints_length_sum (allPoints : list Points) :
  allPoints_length allPoints = Z.of_nat (length (concat allPoints)).
Proof.
  unfold allPoints_length.
  assert (Hfold : ∀ ps acc,
    foldl (λ length points, length + flat_length points / 3) acc ps
    = acc + Z.of_nat (length (concat ps))).
  { induction ps as [|p ps IH]; intros acc; simpl; [lia|].
    rewrite IH, length_app. unfold flat_length.
    rewrite Z.mul_comm, Z.div_mul by lia. lia. }
  destruct allPoints as [|p ps]; [done|].
  change ((p :: ps) !! 0%nat) with (Some p). cbv iota. by rewrite Hfold.
Qed.

(** C8. In Extend mode the width sequence of the instance becomes the
    existing sequence followed by the width table completed for the new
    batch alone. *)
Theorem extend_appends_widths {C} (DEFAULT_COLOR : C) (MATERIAL_TYPE_PBR : Z)
    (options : GreasedLineMeshBuilderOptions.t C)
    (materialOptions : option (GreasedLineMaterialBuilderOptions.t C))
    (instance : GreasedLineMesh.t C) (currentWidths : list (option float)) :
  GreasedLineMeshBuilderOptions.instance options = Some instance →
  GreasedLineMesh.widths instance = Some currentWidths →
  GreasedLineMesh.widths
    (CreateGreasedLine DEFAULT_COLOR MATERIAL_TYPE_PBR options materialOptions)
  = Some
      (currentWidths
       ++ CompleteGreasedLineWidthTable
            (allPoints_length (GreasedLineMeshBuilderOptions.points options))
            (default [] (GreasedLineMeshBuilderOptions.widths options))
            (default WIDTH_DISTRIBUTION_START
               (GreasedLineMeshBuilderOptions.widthDistribution options))
            1%float 1%float).
Proof.
  intros Hinstance Hwidths. unfold CreateGreasedLine.
  rewrite Hinstance, Hwidths.
  destruct (GreasedLineMaterialBuilderOptions.colors _); [|reflexivity].
  destruct (_ || _); [|reflexivity]. cbn.
  destruct (GreasedLineMesh.greasedLineMaterial instance) as [m|];
    [|reflexivity].
  destruct (GreasedLinePluginMaterial.colors m); reflexivity.
Qed.

(** The example of C8: an instance of two points, widths 1,1,2,2, extended
    by one point of widths 3,3. *)
Lemma extend_appends_widths_witness :
  let instance : GreasedLineMesh.t Color3 :=
    GreasedLineMesh.Build
      [[(0, 0, 0); (1, 0, 0)]%float]
      (Some [Some 1; Some 1; Some 2; Some 2]%float) false None None in
  let options :=
    GreasedLineMeshBuilderOptions.Build
      [[(2, 0, 0)]%float] (Some [3; 3]%float) None false (Some instance) in
  GreasedLineMesh.widths (CreateGreasedLine White 1 options None)
  = Some [Some 1; Some 1; Some 2; Some 2; Some 3; Some 3]%float.
Proof.
  intros instance options.
  rewrite (extend_appends_widths White 1 options None instance
             [Some 1; Some 1; Some 2; Some 2]%float);
    reflexivity.
Defined.

(** C9. In Extend mode with colors supplied, an instance whose material is
    absent, or is neither a StandardMaterial nor a PBRMaterial, keeps its
    material and its color state as they are: no update is pushed. *)
Theorem extend_drops_colors {C} (DEFAULT_COLOR : C) (MATERIAL_TYPE_PBR : Z)
    (options : GreasedLineMeshBuilderOptions.t C)
    (materialOptions : GreasedLineMaterialBuilderOptions.t C)
    (instance : GreasedLineMesh.t C) (colors : list C) :
  GreasedLineMeshBuilderOptions.instance options = Some instance →
  GreasedLineMaterialBuilderOptions.colors materialOptions = Some colors →
  GreasedLineMesh.material instance ≠ Some StandardMaterial →
  GreasedLineMesh.material instance ≠ Some PBRMaterial →
  let result :=
    CreateGreasedLine DEFAULT_COLOR MATERIAL_TYPE_PBR options
      (Some materialOptions) in
  GreasedLineMesh.greasedLineMaterial result
  = GreasedLineMesh.greasedLineMaterial instance
  ∧ GreasedLineMesh.material result = GreasedLineMesh.material instance.
Proof.
  intros Hinstance Hcolors Hstd Hpbr. unfold CreateGreasedLine.
  rewrite Hinstance. cbn [default from_option id]. rewrite Hcolors.
  destruct instance as [ps ws lz [[]|] plugin]; cbn in *;
    try congruence; destruct ws; done.
Qed.

Lemma extend_drops_colors_witness :
  let plugin := GreasedLinePluginMaterial.Build (Some [Some Red]) [] in
  let instance : GreasedLineMesh.t Color3 :=
    GreasedLineMesh.Build
      [[(0, 0, 0)]%float] (Some [Some 1; Some 1]%float) false
      (Some OtherMaterial) (Some plugin) in
  let options :=
    GreasedLineMeshBuilderOptions.Build
      [[(1, 0, 0)]%float] None None false (Some instance) in
  let materialOptions :=
    GreasedLineMaterialBuilderOptions.Build
      None None None None (Some [Green]) in
  let result := CreateGreasedLine White 1 options (Some materialOptions) in
  GreasedLineMesh.greasedLineMaterial result = Some plugin
  ∧ GreasedLineMesh.material result = Some OtherMaterial.
Proof.
  intros plugin instance options materialOptions.
  apply (extend_drops_colors White 1 options materialOptions instance
           [Green]); [reflexivity | reflexivity | discriminate..].
Defined.

(** With a StandardMaterial the completed colors are appended to the colors
    of the material and pushed as one update. *)
Example extend_merges_colors :
  let plugin := GreasedLinePluginMaterial.Build (Some [Some Red]) [] in
  let instance : GreasedLineMesh.t Color3 :=
    GreasedLineMesh.Build
      [[(0, 0, 0)]%float] (Some [Some 1; Some 1]%float) true
      (Some StandardMaterial) (Some plugin) in
  let options :=
    GreasedLineMeshBuilderOptions.Build
      [[(1, 0, 0)]%float] None None false (Some instance) in
  let materialOptions :=
    GreasedLineMaterialBuilderOptions.Build
      None None None None (Some [Green]) in
  GreasedLineMesh.greasedLineMaterial
    (CreateGreasedLine White 1 options (Some materialOptions))
  = Some (GreasedLinePluginMaterial.Build
            (Some [Some Red; Some Green])
            [([Some Red; Some Green], true)]).
Proof. reflexivity. Qed.

(** The stride of EVEN is accumulated in binary64: with two colors over 21
    points it is 1/10 rounded, ten of them add up to less than 1, and slot 10
    still reads the first color. *)
Example color_table_even_rounding :
  CompleteGreasedLineColorTable 21 [Red; Green] COLOR_DISTRIBUTION_EVEN White
  = replicate 11 (Some Red) ++ replicate 9 (Some Green).
Proof. reflexivity. Qed.

(** * Further properties of the builder *)

(** Selects the branch of a distribution that is a known constant. *)
Ltac policy_branch :=
  repeat match goal with
  | |- context [Z.eqb ?a ?b] =>
      let v := eval vm_compute in (Z.eqb a b) in
      match v with
      | true => change (Z.eqb a b) with true
      | false => change (Z.eqb a b) with false
      end
  end;
  cbv beta iota zeta.

Lemma for_lt_pairs (n : Z) :
  JS.for_lt 0 (inject_Z n) 2
  = (λ k, Z.of_nat k * 2) <$> seq 0 (Z.to_nat ((n + 1) / 2)).
Proof.
  unfold JS.for_lt. rewrite count_step_two.
  apply list_fmap_ext. intros _ k _. lia.
Qed.

(** Copying the first [n] pairs one pair at a time gives the prefix of
    length [2 * n]. *)
Lemma copy_pairs {A} (a : list A) (n : nat) :
  (2 * n ≤ length a)%nat →
  ((λ k, Z.of_nat k * 2) <$> seq 0 n)
    ≫= (λ i, push2 (JS.get a i) (JS.get a (i + 1)))
  = Some <$> take (2 * n) a.
Proof.
  induction n as [|n IH]; intros Hn; [done|].
  rewrite seq_S, fmap_app, bind_app, IH by lia. simpl.
  destruct (lookup_lt_is_Some_2 a (2 * n)) as [x Hx]; [lia|].
  destruct (lookup_lt_is_Some_2 a (S (2 * n))) as [y Hy]; [lia|].
  replace (n + S (n + 0))%nat with (S (2 * n)) by lia.
  rewrite (take_S_r _ _ _ Hy), (take_S_r _ _ _ Hx), !fmap_app.
  replace (Z.of_nat n * 2) with (Z.of_nat (2 * n)) by lia.
  replace (Z.of_nat (2 * n) + 1) with (Z.of_nat (S (2 * n))) by lia.
  rewrite !get_of_nat, Hx, Hy, <- app_assoc. done.
Qed.

Lemma fill_pairs {B} (xs : list Z) (out : list B) :
  xs ≫= (λ _, out) = concat (replicate (length xs) out).
Proof.
  induction xs as [|x xs IH]; [done|].
  rewrite bind_cons, IH. done.
Qed.

Lemma copy_whole_pairs {A} (widths : list A) :
  Z.Even (Z.of_nat (length widths)) →
  JS.for_lt 0 (inject_Z (Z.of_nat (length widths))) 2
    ≫= (λ i, push2 (JS.get widths i) (JS.get widths (i + 1)))
  = Some <$> widths.
Proof.
  intros [k Hk]. rewrite for_lt_pairs, copy_pairs.
  - rewrite take_ge; [done|]. Z.div_mod_to_equations. lia.
  - Z.div_mod_to_equations. lia.
Qed.

Lemma missing_pairs {B} (pointCount length : Z) (out : list B) :
  JS.for_lt 0 (inject_Z pointCount - inject_Z length / 2) 1 ≫= (λ _, out)
  = concat (replicate (Z.to_nat (pointCount - length / 2)) out).
Proof. by rewrite fill_pairs, length_for_lt, count_missing. Qed.

(** X1. START, with a table of whole pairs that is too short: the existing
    entries come first, in order, and every missing point gets the pair
    [defaultWidthUpper], [defaultWidthLower]. *)
Theorem width_table_start {A} (pointCount : Z) (widths : list A)
    (defaultWidthUpper defaultWidthLower : A) :
  Z.Even (Z.of_nat (length widths)) →
  Z.of_nat (length widths) < 2 * pointCount →
  CompleteGreasedLineWidthTable pointCount widths WIDTH_DISTRIBUTION_START
    defaultWidthUpper defaultWidthLower
  = (Some <$> widths)
    ++ concat
         (replicate (Z.to_nat (pointCount - Z.of_nat (length widths) / 2))
            [Some defaultWidthUpper; Some defaultWidthLower]).
Proof.
  intros Heven Hshort. unfold CompleteGreasedLineWidthTable.
  destruct (width_table_short pointCount widths WIDTH_DISTRIBUTION_START
              defaultWidthUpper defaultWidthLower Hshort) as [-> ->].
  policy_branch. by rewrite copy_whole_pairs, missing_pairs.
Qed.

Lemma width_table_start_witness :
  CompleteGreasedLineWidthTable 3 [5; 6]%float WIDTH_DISTRIBUTION_START
    7%float 8%float
  = [Some 5; Some 6; Some 7; Some 8; Some 7; Some 8]%float.
Proof.
  rewrite (width_table_start 3 [5; 6]%float 7%float 8%float);
    [reflexivity | by exists 1 | simpl; lia].
Defined.

(** X2. END, with a table of whole pairs that is too short: every missing
    point gets the default pair, and the existing entries come last. *)
Theorem width_table_end {A} (pointCount : Z) (widths : list A)
    (defaultWidthUpper defaultWidthLower : A) :
  Z.Even (Z.of_nat (length widths)) →
  Z.of_nat (length widths) < 2 * pointCount →
  CompleteGreasedLineWidthTable pointCount widths WIDTH_DISTRIBUTION_END
    defaultWidthUpper defaultWidthLower
  = concat
      (replicate (Z.to_nat (pointCount - Z.of_nat (length widths) / 2))
         [Some defaultWidthUpper; Some defaultWidthLower])
    ++ (Some <$> widths).
Proof.
  intros Heven Hshort. unfold CompleteGreasedLineWidthTable.
  destruct (width_table_short pointCount widths WIDTH_DISTRIBUTION_END
              defaultWidthUpper defaultWidthLower Hshort) as [-> ->].
  policy_branch. by rewrite copy_whole_pairs, missing_pairs.
Qed.

Lemma width_table_end_witness :
  CompleteGreasedLineWidthTable 3 [5; 6]%float WIDTH_DISTRIBUTION_END
    7%float 8%float
  = [Some 7; Some 8; Some 7; Some 8; Some 5; Some 6]%float.
Proof.
  rewrite (width_table_end 3 [5; 6]%float 7%float 8%float);
    [reflexivity | by exists 1 | simpl; lia].
Defined.

(** The REPEAT loop of the width table over a table of [k > 0] whole pairs:
    the read index is twice the slot number modulo [k]. *)
Lemma width_repeat_loop {A} (a : list A) (k n s : nat) :
  (0 < k)%nat → length a = (2 * k)%nat →
  JS.loop
    (λ i _, (if i + 2 =? Z.of_nat (length a) then 0 else i + 2,
             push2 (JS.get a i) (JS.get a (i + 1))))
    (Z.of_nat (2 * (s mod k))) (Z.of_nat <$> seq s n)
  = seq s n ≫= (λ x, [a !! (2 * (x mod k))%nat; a !! (2 * (x mod k) + 1)%nat]).
Proof.
  intros Hk Hlen. revert s. induction n as [|n IH]; intros s; [done|].
  cbn [seq fmap list_fmap JS.loop]. rewrite bind_cons.
  replace (Z.of_nat (2 * (s mod k)) + 1)
    with (Z.of_nat (2 * (s mod k) + 1)) by lia.
  rewrite !get_of_nat. unfold push2. simpl. do 2 f_equal.
  rewrite <- IH. f_equal.
  pose proof (repeat_next_index s k Hk) as Hnext. rewrite Hlen.
  repeat match goal with
  | |- context [Z.eqb ?a ?b] => destruct (Z.eqb_spec a b)
  | H : context [Z.eqb ?a ?b] |- _ => destruct (Z.eqb_spec a b)
  end; lia.
Qed.

(** The same loop when the read index never meets the length: it is twice
    the slot number and runs off the end of the table. *)
Lemma width_repeat_loop_no_wrap {A} (a : list A) (n s : nat) :
  Z.Odd (Z.of_nat (length a)) ∨ length a = 0%nat →
  JS.loop
    (λ i _, (if i + 2 =? Z.of_nat (length a) then 0 else i + 2,
             push2 (JS.get a i) (JS.get a (i + 1))))
    (Z.of_nat (2 * s)) (Z.of_nat <$> seq s n)
  = seq s n ≫= (λ x, [a !! (2 * x)%nat; a !! (2 * x + 1)%nat]).
Proof.
  intros Hlen. revert s. induction n as [|n IH]; intros s; [done|].
  cbn [seq fmap list_fmap JS.loop]. rewrite bind_cons.
  replace (Z.of_nat (2 * s) + 1) with (Z.of_nat (2 * s + 1)) by lia.
  rewrite !get_of_nat. unfold push2. simpl. do 2 f_equal.
  rewrite <- IH. f_equal.
  match goal with
  | |- context [Z.eqb ?a ?b] => destruct (Z.eqb_spec a b)
  end; [|lia].
  destruct Hlen as [[m Hm] | Hz]; lia.
Qed.

(** X3. REPEAT, with a non-empty table of [k] whole pairs that is too short:
    point [x] gets the pair of index [x mod k]. *)
Theorem width_table_repeat {A} (pointCount : Z) (widths : list A) (k : nat)
    (defaultWidthUpper defaultWidthLower : A) :
  (0 < k)%nat → length widths = (2 * k)%nat →
  Z.of_nat (length widths) < 2 * pointCount →
  CompleteGreasedLineWidthTable pointCount widths WIDTH_DISTRIBUTION_REPEAT
    defaultWidthUpper defaultWidthLower
  = seq 0 (Z.to_nat pointCount)
      ≫= (λ x, [widths !! (2 * (x mod k))%nat;
                widths !! (2 * (x mod k) + 1)%nat]).
Proof.
  intros Hk Hlen Hshort. unfold CompleteGreasedLineWidthTable.
  destruct (width_table_short pointCount widths WIDTH_DISTRIBUTION_REPEAT
              defaultWidthUpper defaultWidthLower Hshort) as [-> ->].
  policy_branch. rewrite for_lt_counter.
  rewrite <- (width_repeat_loop widths k _ 0 Hk Hlen).
  by rewrite Nat.Div0.mod_0_l.
Qed.

Lemma width_table_repeat_witness :
  CompleteGreasedLineWidthTable 3 [1; 2; 3; 4]%float WIDTH_DISTRIBUTION_REPEAT
    9%float 9%float
  = [Some 1; Some 2; Some 3; Some 4; Some 1; Some 2]%float.
Proof.
  rewrite (width_table_repeat 3 [1; 2; 3; 4]%float 2 9%float 9%float);
    [reflexivity | lia | reflexivity | simpl; lia].
Defined.

(** X4. REPEAT, with a table of odd length or an empty table: the read index
    advances by two and is compared with the length, which it never meets, so
    that nothing is repeated: the result is the table itself followed by
    undefined entries. *)
Theorem width_table_repeat_no_wrap {A} (pointCount : Z) (widths : list A)
    (defaultWidthUpper defaultWidthLower : A) :
  Z.Odd (Z.of_nat (length widths)) ∨ length widths = 0%nat →
  Z.of_nat (length widths) < 2 * pointCount →
  CompleteGreasedLineWidthTable pointCount widths WIDTH_DISTRIBUTION_REPEAT
    defaultWidthUpper defaultWidthLower
  = (Some <$> widths)
    ++ replicate (Z.to_nat (2 * pointCount) - length widths) None.
Proof.
  intros Hlen Hshort. unfold CompleteGreasedLineWidthTable.
  destruct (width_table_short pointCount widths WIDTH_DISTRIBUTION_REPEAT
              defaultWidthUpper defaultWidthLower Hshort) as [-> ->].
  policy_branch. rewrite for_lt_counter.
  rewrite <- (Nat.mul_0_r 2) at 1.
  change (Z.of_nat (2 * 0)) with (Z.of_nat (2 * 0)%nat).
  rewrite (width_repeat_loop_no_wrap widths _ 0 Hlen).
  apply list_eq. intros i.
  assert (Hpairs : ∀ n,
    (seq 0 n ≫= (λ x, [widths !! (2 * x)%nat; widths !! (2 * x + 1)%nat]))
    = (λ j, widths !! j) <$> seq 0 (2 * n)).
  { induction n as [|n IH]; [done|].
    rewrite seq_S, bind_app, IH.
    replace (2 * S n)%nat with (2 * n + 2)%nat by lia.
    rewrite seq_app, fmap_app. simpl. by rewrite Nat.add_1_r. }
  rewrite Hpairs.
  destruct (decide (i < 2 * Z.to_nat pointCount)%nat) as [Hi | Hi].
  - rewrite list_lookup_fmap, lookup_seq_lt by done. simpl.
    destruct (decide (i < length widths)%nat) as [Hw | Hw].
    + rewrite lookup_app_l by (rewrite length_fmap; done).
      rewrite list_lookup_fmap.
      by destruct (lookup_lt_is_Some_2 widths i Hw) as [x ->].
    + rewrite lookup_app_r by (rewrite length_fmap; lia).
      rewrite length_fmap, lookup_replicate_2 by lia.
      by rewrite (lookup_ge_None_2 widths) by lia.
  - rewrite !lookup_ge_None_2; [done|..].
    + rewrite length_app, length_fmap, length_replicate. lia.
    + rewrite length_fmap, length_seq. lia.
Qed.

Lemma width_table_repeat_no_wrap_witness :
  CompleteGreasedLineWidthTable 3 [1; 2; 3]%float WIDTH_DISTRIBUTION_REPEAT
    9%float 9%float
  = [Some 1; Some 2; Some 3; None; None; None]%float.
Proof.
  rewrite (width_table_repeat_no_wrap 3 [1; 2; 3]%float 9%float 9%float);
    [reflexivity | left; by exists 1 | simpl; lia].
Defined.

(** ** Where the entries come from *)

Lemma get_elem {A} (a : list A) (i : Z) (x : A) : JS.get a i = Some x → x ∈ a.
Proof.
  unfold JS.get. destruct (_ && _); [|done]. apply list_elem_of_lookup_2.
Qed.

Lemma getQ_elem {A} (a : list A) (q : Q) (x : A) :
  JS.getQ a q = Some x → x ∈ a.
Proof. unfold JS.getQ. destruct (_ =? _); [apply get_elem | done]. Qed.

Lemma getF_elem {A} (a : list A) (f : float) (x : A) :
  JS.getF a f = Some x → x ∈ a.
Proof.
  unfold JS.getF. destruct (Prim2SF f) as [| | |[] m e]; try done;
    try apply get_elem.
  destruct (0 <=? e); [apply get_elem|].
  destruct (_ =? _); [apply get_elem | done].
Qed.

Lemma Forall_loop {S B} (P : B → Prop) (body : S → Z → S * list B) (s : S)
    (xs : list Z) :
  (∀ s x, Forall P (body s x).2) → Forall P (JS.loop body s xs).
Proof.
  intros Hbody. revert s. induction xs as [|x xs IH]; intros s; simpl; [done|].
  specialize (Hbody s x). destruct (body s x) as [s' out].
  apply Forall_app. split; [exact Hbody | apply IH].
Qed.

(** The entries read from the table come from the table. *)
Ltac from_table :=
  repeat first
    [ apply Forall_nil_2
    | apply Forall_cons_2
    | apply Forall_app_2
    | apply Forall_loop; intros ? ?; cbn [snd push2]
    | apply Forall_bind, Forall_forall; intros ? _; cbn [push2] ];
  try (intros ? ?;
       first [ left; eapply get_elem; eassumption
             | left; eapply getQ_elem; eassumption
             | left; eapply getF_elem; eassumption
             | right; congruence ]).

(** X5. The completed width table holds nothing but entries of the input
    table and the two default widths: no other value is ever produced,
    whatever the distribution. *)
Theorem width_table_entries {A} (pointCount : Z) (widths : list A)
    (widthsDistribution : Z) (defaultWidthUpper defaultWidthLower : A) :
  Forall
    (λ entry, ∀ x, entry = Some x →
       x ∈ widths ∨ x = defaultWidthUpper ∨ x = defaultWidthLower)
    (CompleteGreasedLineWidthTable pointCount widths widthsDistribution
       defaultWidthUpper defaultWidthLower).
Proof.
  unfold CompleteGreasedLineWidthTable.
  destruct (JS.ltb _ 0).
  { apply Forall_fmap, Forall_forall. intros x Hx y [= <-]. left.
    by apply (subseteq_take _ _ _ Hx). }
  destruct (JS.ltb 0 _).
  - repeat (destruct (widthsDistribution =? _)); from_table.
    all: intros ? ?; right; naive_solver.
  - from_table.
Qed.

(** X6. Outside of START and END the default widths are never used: under
    START_END, REPEAT and EVEN, and when no entry is missing, every defined
    entry of the result is an entry of the input table. *)
Theorem width_table_entries_no_default {A} (pointCount : Z) (widths : list A)
    (widthsDistribution : Z) (defaultWidthUpper defaultWidthLower : A) :
  widthsDistribution ≠ WIDTH_DISTRIBUTION_START →
  widthsDistribution ≠ WIDTH_DISTRIBUTION_END →
  Forall (λ entry, ∀ x, entry = Some x → x ∈ widths)
    (CompleteGreasedLineWidthTable pointCount widths widthsDistribution
       defaultWidthUpper defaultWidthLower).
Proof.
  intros Hstart Hend. apply Z.eqb_neq in Hstart, Hend.
  unfold CompleteGreasedLineWidthTable. rewrite Hstart, Hend.
  destruct (JS.ltb _ 0).
  { apply Forall_fmap, Forall_forall. intros x Hx y [= <-].
    by apply (subseteq_take _ _ _ Hx). }
  destruct (JS.ltb 0 _).
  - repeat (destruct (widthsDistribution =? _));
      repeat first
        [ apply Forall_nil_2
        | apply Forall_cons_2
        | apply Forall_app_2
        | apply Forall_loop; intros ? ?; cbn [snd push2]
        | apply Forall_bind, Forall_forall; intros ? _; cbn [push2] ];
      intros ? ?;
      first [ eapply get_elem; eassumption
            | eapply getQ_elem; eassumption
            | eapply getF_elem; eassumption ].
  - apply Forall_bind, Forall_forall. intros i _.
    apply Forall_cons_2; [|done]. intros x Hx. by eapply get_elem.
Qed.

Lemma width_table_entries_no_default_witness :
  Forall (λ entry, ∀ x, entry = Some x → x ∈ [1; 2; 3; 4]%float)
    (CompleteGreasedLineWidthTable 5 [1; 2; 3; 4]%float
       WIDTH_DISTRIBUTION_EVEN 9%float 9%float).
Proof.
  apply (width_table_entries_no_default 5 [1; 2; 3; 4]%float
           WIDTH_DISTRIBUTION_EVEN 9%float 9%float); discriminate.
Defined.

(** ** Sizes and edge cases of the width table *)

Lemma count_step_two_from (start bound : Z) :
  Qceiling ((inject_Z bound - inject_Z start) / inject_Z 2)
  = (bound - start + 1) / 2.
Proof.
  unfold Qceiling, Qfloor, Qminus, Qdiv, Qplus, Qmult, Qopp, Qinv, inject_Z.
  simpl. rewrite ?Pos.mul_1_l, ?Pos.mul_1_r. Z.div_mod_to_equations. lia.
Qed.

(** X7. START_END, with a table of [k >= 1] whole pairs that is too short,
    pushes [k - 1] pairs, then the missing ones, then one pair for every
    second entry of the second half: [pointCount - 1 + (k + 1) / 2] pairs in
    all.  That is [pointCount] pairs for one or two pairs in the table, and
    more for three pairs or more. *)
Theorem width_table_start_end_length {A} (pointCount k : Z) (widths : list A)
    (defaultWidthUpper defaultWidthLower : A) :
  1 <= k → Z.of_nat (length widths) = 2 * k → k < pointCount →
  Z.of_nat
    (length
       (CompleteGreasedLineWidthTable pointCount widths
          WIDTH_DISTRIBUTION_START_END defaultWidthUpper defaultWidthLower))
  = 2 * (pointCount - 1 + (k + 1) / 2).
Proof.
  intros Hk Hlen Hshort. unfold CompleteGreasedLineWidthTable.
  destruct (width_table_short pointCount widths WIDTH_DISTRIBUTION_START_END
              defaultWidthUpper defaultWidthLower) as [-> ->]; [lia|].
  policy_branch.
  rewrite !length_app, !Nat2Z.inj_add, (length_loop _ 2) by done.
  rewrite length_missing_pairs by done.
  rewrite (length_bind_const _ 2) by done.
  rewrite !length_for_lt, count_integer_bound, count_step_two_from.
  rewrite halfCount_div, Hlen.
  replace (2 * k / 2) with k by (Z.div_mod_to_equations; lia).
  replace (2 * k - k + 1) with (k + 1) by lia.
  Z.div_mod_to_equations. lia.
Qed.

Lemma width_table_start_end_length_witness :
  Z.of_nat
    (length
       (CompleteGreasedLineWidthTable 4 [1; 1; 2; 2; 3; 3]%float
          WIDTH_DISTRIBUTION_START_END 1%float 1%float))
  = 2 * (4 - 1 + (3 + 1) / 2).
Proof.
  apply (width_table_start_end_length 4 3 [1; 1; 2; 2; 3; 3]%float
           1%float 1%float); [lia | reflexivity | lia].
Defined.

(** X8. For no point at all the completed width table is empty, whatever the
    table and the distribution. *)
Theorem width_table_no_point {A} (widths : list A) (widthsDistribution : Z)
    (defaultWidthUpper defaultWidthLower : A) :
  CompleteGreasedLineWidthTable 0 widths widthsDistribution
    defaultWidthUpper defaultWidthLower
  = [].
Proof.
  destruct widths as [|w widths].
  - by rewrite width_table_exact.
  - rewrite width_table_long by (simpl length; lia). reflexivity.
Qed.

Lemma get_nil {A} (i : Z) : JS.get (@nil A) i = None.
Proof. unfold JS.get. by destruct (_ && _). Qed.

Lemma getF_nil {A} (f : float) : JS.getF (@nil A) f = None.
Proof.
  unfold JS.getF. destruct (Prim2SF f) as [| | |[] m e]; try done;
    try apply get_nil.
  destruct (0 <=? e); [apply get_nil|].
  destruct (_ =? _); [apply get_nil | done].
Qed.

Lemma loop_same_output {S B} (body : S → Z → S * list B) (out : list B)
    (s : S) (xs : list Z) :
  (∀ s x, (body s x).2 = out) →
  JS.loop body s xs = concat (replicate (length xs) out).
Proof.
  intros Hbody. revert s. induction xs as [|x xs IH]; intros s; simpl; [done|].
  specialize (Hbody s x). destruct (body s x) as [s' out']. simpl in Hbody.
  by rewrite Hbody, IH.
Qed.

Lemma concat_replicate_pair {B} (n : nat) (x : B) :
  concat (replicate n [x; x]) = replicate (2 * n) x.
Proof.
  induction n as [|n IH]; [done|].
  replace (2 * S n)%nat with (S (S (2 * n))) by lia. simpl. by rewrite IH.
Qed.

(** X9. An empty width table is completed with defined entries by START and
    END only.  Under START_END, REPEAT and EVEN every read falls outside of
    the table and the result is [2 * pointCount] undefined entries. *)
Theorem width_table_empty_undefined {A} (pointCount : Z)
    (widthsDistribution : Z) (defaultWidthUpper defaultWidthLower : A) :
  0 < pointCount →
  widthsDistribution = WIDTH_DISTRIBUTION_START_END
  ∨ widthsDistribution = WIDTH_DISTRIBUTION_REPEAT
  ∨ widthsDistribution = WIDTH_DISTRIBUTION_EVEN →
  CompleteGreasedLineWidthTable pointCount [] widthsDistribution
    defaultWidthUpper defaultWidthLower
  = replicate (2 * Z.to_nat pointCount) None.
Proof.
  intros Hpc Hcase. unfold CompleteGreasedLineWidthTable.
  destruct (width_table_short pointCount (@nil A) widthsDistribution
              defaultWidthUpper defaultWidthLower) as [-> ->];
    [simpl length; lia|].
  change (Z.of_nat (length (@nil A))) with 0.
  destruct Hcase as [-> | [-> | ->]]; policy_branch.
  - change (Qfloor (inject_Z 0 / 2)) with 0.
    change (JS.for_lt 0 (inject_Z (0 - 1)) 1) with (@nil Z).
    change (JS.for_lt 0 (inject_Z 0) 2) with (@nil Z).
    change (JS.getQ (@nil A) (inject_Z 0 / 2 + 1)) with (@None A).
    change (JS.getQ (@nil A) (inject_Z 0 / 2)) with (@None A).
    rewrite missing_pairs. simpl. rewrite app_nil_r.
    change (0 `div` 2) with 0. rewrite Z.sub_0_r.
    apply concat_replicate_pair.
  - rewrite (loop_same_output _ [None; None]).
    + rewrite length_for_lt, count_integer_bound, Z.sub_0_r.
      apply concat_replicate_pair.
    + intros i _. simpl. by rewrite !get_nil.
  - rewrite (loop_same_output _ [None; None]).
    + rewrite length_for_lt, count_integer_bound, Z.sub_0_r.
      apply concat_replicate_pair.
    + intros j _. simpl. by rewrite !getF_nil.
Qed.

Lemma width_table_empty_undefined_witness :
  CompleteGreasedLineWidthTable 2 [] WIDTH_DISTRIBUTION_REPEAT 1%float 1%float
  = [None; None; None; None].
Proof.
  apply (width_table_empty_undefined 2 WIDTH_DISTRIBUTION_REPEAT
           1%float 1%float); [lia | right; left; reflexivity].
Defined.

(** X10. EVEN, with entries missing: the first point always gets the first
    pair of the table, whatever the stride. *)
Theorem width_table_even_first_pair {A} (pointCount : Z) (widths : list A)
    (defaultWidthUpper defaultWidthLower : A) :
  Z.of_nat (length widths) < 2 * pointCount →
  take 2
    (CompleteGreasedLineWidthTable pointCount widths WIDTH_DISTRIBUTION_EVEN
       defaultWidthUpper defaultWidthLower)
  = [widths !! 0%nat; widths !! 1%nat].
Proof.
  intros Hshort. unfold CompleteGreasedLineWidthTable.
  destruct (width_table_short pointCount widths WIDTH_DISTRIBUTION_EVEN
              defaultWidthUpper defaultWidthLower Hshort) as [-> ->].
  policy_branch. rewrite for_lt_counter.
  destruct (Z.to_nat pointCount) as [|n] eqn:E; [lia|].
  cbn [seq fmap list_fmap JS.loop].
  change (JS.Math_floor 0) with 0%float.
  change (0 + 1)%float with 1%float.
  change (JS.getF widths 0) with (JS.get widths (Z.of_nat 0)).
  change (JS.getF widths 1) with (JS.get widths (Z.of_nat 1)).
  by rewrite !get_of_nat.
Qed.

Lemma width_table_even_first_pair_witness :
  take 2
    (CompleteGreasedLineWidthTable 5 [1; 2; 3; 4]%float
       WIDTH_DISTRIBUTION_EVEN 9%float 9%float)
  = [Some 1; Some 2]%float.
Proof.
  apply (width_table_even_first_pair 5 [1; 2; 3; 4]%float 9%float 9%float).
  simpl. lia.
Defined.

Lemma all_defined_Some {A} (l : list A) : all_defined (Some <$> l).
Proof. apply Forall_fmap, Forall_forall. intros x _. by exists x. Qed.

(** X11. A table of whole pairs is completed without any undefined entry
    when no entry is missing, under START and END, and, if the table is not
    empty, under REPEAT. *)
Theorem width_table_all_defined {A} (pointCount : Z) (widths : list A)
    (widthsDistribution : Z) (defaultWidthUpper defaultWidthLower : A) :
  Z.Even (Z.of_nat (length widths)) →
  2 * pointCount <= Z.of_nat (length widths)
  ∨ widthsDistribution = WIDTH_DISTRIBUTION_START
  ∨ widthsDistribution = WIDTH_DISTRIBUTION_END
  ∨ widthsDistribution = WIDTH_DISTRIBUTION_REPEAT ∧ widths ≠ [] →
  all_defined
    (CompleteGreasedLineWidthTable pointCount widths widthsDistribution
       defaultWidthUpper defaultWidthLower).
Proof.
  intros Heven Hcase.
  destruct (Z.lt_trichotomy (2 * pointCount) (Z.of_nat (length widths)))
    as [Hlong | [Hexact | Hshort]].
  - rewrite width_table_long by done. apply all_defined_Some.
  - rewrite width_table_exact by done. apply all_defined_Some.
  - unfold CompleteGreasedLineWidthTable.
    destruct (width_table_short pointCount widths widthsDistribution
                defaultWidthUpper defaultWidthLower Hshort) as [-> ->].
    assert (Hfill : all_defined
      (JS.for_lt 0
         (inject_Z pointCount - inject_Z (Z.of_nat (length widths)) / 2) 1
       ≫= (λ _, push2 (Some defaultWidthUpper) (Some defaultWidthLower)))).
    { apply Forall_bind, Forall_forall. intros i Hi.
      repeat apply Forall_cons_2; by eauto. }
    destruct Hcase as [? | [-> | [-> | [-> Hne]]]]; [lia|..]; policy_branch.
    + rewrite copy_whole_pairs by done.
      apply Forall_app_2; [apply all_defined_Some | exact Hfill].
    + rewrite copy_whole_pairs by done.
      apply Forall_app_2; [exact Hfill | apply all_defined_Some].
    + destruct Heven as [k Hk].
      assert (Hlen : length widths = (2 * Z.to_nat k)%nat) by lia.
      assert (Hpos : (0 < Z.to_nat k)%nat).
      { destruct widths; [done | simpl in *; lia]. }
      rewrite for_lt_counter.
      pose proof (width_repeat_loop widths (Z.to_nat k)
                    (Z.to_nat pointCount) 0 Hpos Hlen) as Hloop.
      rewrite Nat.Div0.mod_0_l in Hloop.
      change (Z.of_nat (2 * 0)) with 0 in Hloop. rewrite Hloop.
      apply Forall_bind, Forall_forall. intros x _.
      pose proof (Nat.mod_upper_bound x (Z.to_nat k)).
      repeat apply Forall_cons_2; try done;
        apply lookup_lt_is_Some_2; lia.
Qed.

Lemma width_table_all_defined_witness :
  all_defined
    (CompleteGreasedLineWidthTable 3 [1; 2; 3; 4]%float
       WIDTH_DISTRIBUTION_REPEAT 9%float 9%float).
Proof.
  apply (width_table_all_defined 3 [1; 2; 3; 4]%float
           WIDTH_DISTRIBUTION_REPEAT 9%float 9%float).
  - by exists 2.
  - right. right. right. split; [reflexivity | discriminate].
Defined.

(** ** Shapes of the color table *)

Lemma for_lt_from (start bound : Z) :
  JS.for_lt start (inject_Z bound) 1
  = (λ k, start + Z.of_nat k) <$> seq 0 (Z.to_nat (bound - start)).
Proof.
  unfold JS.for_lt. rewrite count_integer_bound.
  apply list_fmap_ext. intros _ k _. lia.
Qed.

(** Copying [n] entries one by one from index [s] on. *)
Lemma copy_range {A} (a : list A) (s n : nat) :
  (s + n ≤ length a)%nat →
  ((λ k, Z.of_nat s + Z.of_nat k) <$> seq 0 n) ≫= (λ i, [JS.get a i])
  = Some <$> take n (drop s a).
Proof.
  induction n as [|n IH]; intros Hn; [done|].
  rewrite seq_S, fmap_app, bind_app, IH by lia. simpl.
  destruct (lookup_lt_is_Some_2 a (s + n)) as [x Hx]; [lia|].
  rewrite (take_S_r _ _ x), fmap_app by (by rewrite lookup_drop).
  replace (Z.of_nat s + Z.of_nat n) with (Z.of_nat (s + n)) by lia.
  by rewrite get_of_nat, Hx.
Qed.

(** X12. START, with colors missing: the existing colors come first, in
    order, and every missing point gets the default color. *)
Theorem color_table_start {C} (pointCount : Z) (colors : list C)
    (defaultColor : C) :
  Z.of_nat (length colors) < pointCount →
  CompleteGreasedLineColorTable pointCount colors COLOR_DISTRIBUTION_START
    defaultColor
  = (Some <$> colors)
    ++ replicate (Z.to_nat (pointCount - Z.of_nat (length colors)))
         (Some defaultColor).
Proof.
  intros Hshort. unfold CompleteGreasedLineColorTable.
  destruct (color_table_short pointCount colors Hshort) as [-> ->].
  policy_branch. by rewrite copy_all, fill_loop.
Qed.

Lemma color_table_start_witness :
  CompleteGreasedLineColorTable 4 [Red; Green] COLOR_DISTRIBUTION_START White
  = [Some Red; Some Green; Some White; Some White].
Proof.
  rewrite (color_table_start 4 [Red; Green] White);
    [reflexivity | simpl; lia].
Defined.

(** X13. END, with colors missing: one default color fewer than there are
    colors missing, then the existing colors. *)
Theorem color_table_end_shape {C} (pointCount : Z) (colors : list C)
    (defaultColor : C) :
  Z.of_nat (length colors) < pointCount →
  CompleteGreasedLineColorTable pointCount colors COLOR_DISTRIBUTION_END
    defaultColor
  = replicate (Z.to_nat (pointCount - Z.of_nat (length colors) - 1))
      (Some defaultColor)
    ++ (Some <$> colors).
Proof. apply color_table_end. Qed.

Lemma color_table_end_shape_witness :
  CompleteGreasedLineColorTable 4 [Red] COLOR_DISTRIBUTION_END White
  = [Some White; Some White; Some Red].
Proof.
  rewrite (color_table_end_shape 4 [Red] White); [reflexivity | simpl; lia].
Defined.

(** X14. START_END, with colors missing: the first half of the colors (the
    shorter half when their number is odd), then one default color fewer than
    there are colors missing, then the other half. *)
Theorem color_table_start_end {C} (pointCount : Z) (colors : list C)
    (defaultColor : C) :
  Z.of_nat (length colors) < pointCount →
  CompleteGreasedLineColorTable pointCount colors
    COLOR_DISTRIBUTION_START_END defaultColor
  = (Some <$> take (length colors / 2) colors)
    ++ replicate (Z.to_nat (pointCount - Z.of_nat (length colors) - 1))
         (Some defaultColor)
    ++ (Some <$> drop (length colors / 2) colors).
Proof.
  intros Hshort. unfold CompleteGreasedLineColorTable.
  destruct (color_table_short pointCount colors Hshort) as [-> ->].
  policy_branch. rewrite halfCount_div, fill_loop.
  assert (Hhalf : Z.of_nat (length colors) / 2
                  = Z.of_nat (length colors / 2)%nat).
  { by rewrite Nat2Z.inj_div. }
  pose proof (Nat.Div0.div_le_upper_bound (length colors) 2 (length colors))
    as Hle.
  rewrite Hhalf, for_lt_counter, Nat2Z.id, copy_prefix by lia.
  rewrite for_lt_from.
  replace (Z.to_nat (Z.of_nat (length colors) - Z.of_nat (length colors / 2)))
    with (length colors - length colors / 2)%nat by lia.
  rewrite copy_range by lia.
  rewrite (take_ge (drop _ colors)) by (rewrite length_drop; lia). done.
Qed.

Lemma color_table_start_end_witness :
  CompleteGreasedLineColorTable 6 [Red; Green; Red] COLOR_DISTRIBUTION_START_END
    White
  = [Some Red; Some White; Some White; Some Green; Some Red].
Proof.
  rewrite (color_table_start_end 6 [Red; Green; Red] White);
    [reflexivity | simpl; lia].
Defined.

(** X15. NONE never pads: a color table that is not longer than the point
    count is returned as it is. *)
Theorem color_table_none {C} (pointCount : Z) (colors : list C)
    (defaultColor : C) :
  Z.of_nat (length colors) <= pointCount →
  CompleteGreasedLineColorTable pointCount colors COLOR_DISTRIBUTION_NONE
    defaultColor
  = Some <$> colors.
Proof.
  intros Hlen.
  destruct (Z.eq_dec (Z.of_nat (length colors)) pointCount) as [Heq | Hne].
  - by apply color_table_exact.
  - unfold CompleteGreasedLineColorTable.
    destruct (color_table_short pointCount colors) as [-> ->]; [lia|].
    policy_branch. apply copy_all.
Qed.

Lemma color_table_none_witness :
  CompleteGreasedLineColorTable 5 [Red; Green] COLOR_DISTRIBUTION_NONE White
  = [Some Red; Some Green].
Proof.
  apply (color_table_none 5 [Red; Green] White). simpl. lia.
Defined.

(** X16. With no color missing the distribution is not looked at, NONE
    included: the result is the first [pointCount] colors. *)
Theorem color_table_no_missing {C} (pointCount : Z) (colors : list C)
    (colorDistribution : Z) (defaultColor : C) :
  0 <= pointCount <= Z.of_nat (length colors) →
  CompleteGreasedLineColorTable pointCount colors colorDistribution
    defaultColor
  = Some <$> take (Z.to_nat pointCount) colors.
Proof.
  intros [Hpc Hlen].
  destruct (Z.eq_dec (Z.of_nat (length colors)) pointCount) as [Heq | Hne].
  - rewrite color_table_exact by done. by rewrite take_ge by lia.
  - rewrite color_table_long by lia. unfold JS.slice0.
    destruct (pointCount <? 0) eqn:E; [lia|]. do 2 f_equal. lia.
Qed.

Lemma color_table_no_missing_witness :
  CompleteGreasedLineColorTable 2 [Red; Green; White] COLOR_DISTRIBUTION_NONE
    White
  = [Some Red; Some Green].
Proof.
  rewrite (color_table_no_missing 2 [Red; Green; White]
             COLOR_DISTRIBUTION_NONE White);
    [reflexivity | simpl; lia].
Defined.

(** X17. With colors missing, a distribution that is none of the six values
    of the enum leaves the color table empty. *)
Theorem color_table_unknown_distribution {C} (pointCount : Z)
    (colors : list C) (colorDistribution : Z) (defaultColor : C) :
  Z.of_nat (length colors) < pointCount →
  colorDistribution < 0 ∨ 5 < colorDistribution →
  CompleteGreasedLineColorTable pointCount colors colorDistribution
    defaultColor
  = [].
Proof.
  intros Hshort Hcase. unfold CompleteGreasedLineColorTable.
  destruct (color_table_short pointCount colors Hshort) as [-> ->].
  unfold COLOR_DISTRIBUTION_START_END, COLOR_DISTRIBUTION_START,
    COLOR_DISTRIBUTION_END, COLOR_DISTRIBUTION_REPEAT,
    COLOR_DISTRIBUTION_EVEN, COLOR_DISTRIBUTION_NONE.
  repeat match goal with
  | |- context [Z.eqb ?a ?b] => destruct (Z.eqb_spec a b); [lia|]
  end.
  reflexivity.
Qed.

Lemma color_table_unknown_distribution_witness :
  CompleteGreasedLineColorTable 3 [Red] 6 White = [].
Proof.
  apply (color_table_unknown_distribution 3 [Red] 6 White);
    [simpl; lia | right; lia].
Defined.

(** ** Sizes and entries of the color table *)

(** X18. The completed color table has one entry per point when no color is
    missing, and under START and REPEAT. *)
Theorem color_table_length {C} (pointCount : Z) (colors : list C)
    (colorDistribution : Z) (defaultColor : C) :
  0 <= pointCount →
  pointCount <= Z.of_nat (length colors)
  ∨ colorDistribution = COLOR_DISTRIBUTION_START
  ∨ colorDistribution = COLOR_DISTRIBUTION_REPEAT →
  Z.of_nat
    (length
       (CompleteGreasedLineColorTable pointCount colors colorDistribution
          defaultColor))
  = pointCount.
Proof. apply color_table_length_full. Qed.

Lemma color_table_length_witness :
  Z.of_nat
    (length
       (CompleteGreasedLineColorTable 4 [Red] COLOR_DISTRIBUTION_REPEAT White))
  = 4.
Proof.
  apply (color_table_length 4 [Red] COLOR_DISTRIBUTION_REPEAT White);
    [lia | right; right; reflexivity].
Defined.

(** X19. With colors missing, END, START_END and EVEN return one entry fewer
    than there are points. *)
Theorem color_table_length_one_short {C} (pointCount : Z) (colors : list C)
    (colorDistribution : Z) (defaultColor : C) :
  Z.of_nat (length colors) < pointCount →
  colorDistribution = COLOR_DISTRIBUTION_END
  ∨ colorDistribution = COLOR_DISTRIBUTION_START_END
  ∨ colorDistribution = COLOR_DISTRIBUTION_EVEN →
  Z.of_nat
    (length
       (CompleteGreasedLineColorTable pointCount colors colorDistribution
          defaultColor))
  = pointCount - 1.
Proof. apply color_table_length_short. Qed.

Lemma color_table_length_one_short_witness :
  Z.of_nat
    (length
       (CompleteGreasedLineColorTable 4 [Red; Green] COLOR_DISTRIBUTION_EVEN
          White))
  = 4 - 1.
Proof.
  apply (color_table_length_one_short 4 [Red; Green] COLOR_DISTRIBUTION_EVEN
           White); [simpl; lia | right; right; reflexivity].
Defined.

(** X20. The completed color table holds nothing but colors of the input
    table and the default color, whatever the distribution. *)
Theorem color_table_entries {C} (pointCount : Z) (colors : list C)
    (colorDistribution : Z) (defaultColor : C) :
  Forall (λ entry, ∀ x, entry = Some x → x ∈ colors ∨ x = defaultColor)
    (CompleteGreasedLineColorTable pointCount colors colorDistribution
       defaultColor).
Proof.
  unfold CompleteGreasedLineColorTable.
  destruct (_ <? 0).
  { apply Forall_fmap, Forall_forall. intros x Hx y [= <-]. left.
    by apply (subseteq_take _ _ _ Hx). }
  destruct (0 <? _).
  - repeat (destruct (colorDistribution =? _)); from_table.
  - from_table.
Qed.

(** X21. REPEAT, EVEN and NONE never use the default color: every defined
    entry of their result is a color of the input table. *)
Theorem color_table_entries_no_default {C} (pointCount : Z) (colors : list C)
    (colorDistribution : Z) (defaultColor : C) :
  colorDistribution = COLOR_DISTRIBUTION_REPEAT
  ∨ colorDistribution = COLOR_DISTRIBUTION_EVEN
  ∨ colorDistribution = COLOR_DISTRIBUTION_NONE →
  Forall (λ entry, ∀ x, entry = Some x → x ∈ colors)
    (CompleteGreasedLineColorTable pointCount colors colorDistribution
       defaultColor).
Proof.
  intros Hcase. unfold CompleteGreasedLineColorTable.
  destruct (_ <? 0).
  { apply Forall_fmap, Forall_forall. intros x Hx y [= <-].
    by apply (subseteq_take _ _ _ Hx). }
  assert (Hcopy : ∀ xs : list Z,
    Forall (λ entry, ∀ x, entry = Some x → x ∈ colors)
      (xs ≫= (λ i, [JS.get colors i]))).
  { intros xs. apply Forall_bind, Forall_forall. intros i _.
    apply Forall_cons_2; [|done]. intros x Hx. by eapply get_elem. }
  destruct (0 <? _); [|apply Hcopy].
  destruct Hcase as [-> | [-> | ->]]; policy_branch.
  - apply Forall_loop. intros i _. cbn [snd].
    apply Forall_cons_2; [|done]. intros x Hx. by eapply get_elem.
  - apply Forall_loop. intros j _. cbn [snd].
    apply Forall_cons_2; [|done]. intros x Hx. by eapply getF_elem.
  - apply Hcopy.
Qed.

Lemma color_table_entries_no_default_witness :
  Forall (λ entry, ∀ x, entry = Some x → x ∈ [Red; Green])
    (CompleteGreasedLineColorTable 5 [Red; Green] COLOR_DISTRIBUTION_EVEN
       White).
Proof.
  apply (color_table_entries_no_default 5 [Red; Green]
           COLOR_DISTRIBUTION_EVEN White).
  right. left. reflexivity.
Defined.

(** X22. An empty color table and at least one point: REPEAT returns
    [pointCount] undefined entries and EVEN [pointCount - 1] of them. *)
Theorem color_table_empty_undefined {C} (pointCount : Z) (defaultColor : C) :
  0 < pointCount →
  CompleteGreasedLineColorTable pointCount [] COLOR_DISTRIBUTION_REPEAT
    defaultColor
  = replicate (Z.to_nat pointCount) None
  ∧ CompleteGreasedLineColorTable pointCount [] COLOR_DISTRIBUTION_EVEN
      defaultColor
    = replicate (Z.to_nat (pointCount - 1)) None.
Proof.
  intros Hpc. unfold CompleteGreasedLineColorTable.
  destruct (color_table_short pointCount (@nil C)) as [-> ->];
    [simpl length; lia|].
  assert (Hone : ∀ n, concat (replicate n [@None C]) = replicate n None).
  { induction n as [|n IH]; [done|]. simpl. by rewrite IH. }
  split; policy_branch.
  - rewrite (loop_same_output _ [None]).
    + by rewrite length_for_lt, count_integer_bound, Z.sub_0_r, Hone.
    + intros i _. simpl. by rewrite get_nil.
  - rewrite (loop_same_output _ [None]).
    + by rewrite length_for_lt, count_integer_bound, Z.sub_0_r, Hone.
    + intros j _. simpl. by rewrite getF_nil.
Qed.

Lemma color_table_empty_undefined_witness :
  CompleteGreasedLineColorTable 3 [] COLOR_DISTRIBUTION_REPEAT White
  = [None; None; None]
  ∧ CompleteGreasedLineColorTable 3 [] COLOR_DISTRIBUTION_EVEN White
    = [None; None].
Proof. apply (color_table_empty_undefined 3 White). lia. Defined.

(** ** The builder *)

(** X23. The point count of a batch is the total number of points of its
    polylines; it is 0 for a batch without polyline. *)
Theorem batch_point_count (allPoints : list Points) :
  allPoints_length allPoints = Z.of_nat (length (concat allPoints))
  ∧ allPoints_length [] = 0.
Proof. split; [apply allPoints_length_sum | reflexivity]. Qed.

(** X24. Extend mode appends the points of the batch to those of the
    instance, and leaves the lazy flag and the material of the instance as
    they are. *)
Theorem extend_appends_points {C} (DEFAULT_COLOR : C) (MATERIAL_TYPE_PBR : Z)
    (options : GreasedLineMeshBuilderOptions.t C)
    (materialOptions : option (GreasedLineMaterialBuilderOptions.t C))
    (instance : GreasedLineMesh.t C) :
  GreasedLineMeshBuilderOptions.instance options = Some instance →
  let result :=
    CreateGreasedLine DEFAULT_COLOR MATERIAL_TYPE_PBR options materialOptions
  in
  GreasedLineMesh.points result
  = GreasedLineMesh.points instance
    ++ GreasedLineMeshBuilderOptions.points options
  ∧ GreasedLineMesh.lazy result = GreasedLineMesh.lazy instance
  ∧ GreasedLineMesh.material result = GreasedLineMesh.material instance.
Proof.
  intros Hinstance. unfold CreateGreasedLine. rewrite Hinstance.
  destruct instance as [ps ws lz mat plugin].
  cbn -[CompleteGreasedLineWidthTable CompleteGreasedLineColorTable].
  destruct (GreasedLineMaterialBuilderOptions.colors _);
    destruct ws;
    cbn -[CompleteGreasedLineWidthTable CompleteGreasedLineColorTable];
    try done;
    destruct (_ || _); try done;
    destruct plugin as [[[cs|] us]|]; done.
Qed.

Lemma extend_appends_points_witness :
  let instance : GreasedLineMesh.t Color3 :=
    GreasedLineMesh.Build
      [[(0, 0, 0); (1, 0, 0)]%float] None true (Some PBRMaterial) None in
  let options :=
    GreasedLineMeshBuilderOptions.Build
      [[(2, 0, 0)]%float] None None false (Some instance) in
  let result := CreateGreasedLine White 1 options None in
  GreasedLineMesh.points result
  = [[(0, 0, 0); (1, 0, 0)]; [(2, 0, 0)]]%float
  ∧ GreasedLineMesh.lazy result = true
  ∧ GreasedLineMesh.material result = Some PBRMaterial.
Proof.
  intros instance options.
  apply (extend_appends_points White 1 options None instance). reflexivity.
Defined.

(** X25. Extend mode on an instance that has no width table yet: the table
    completed for the batch becomes the width table of the instance. *)
Theorem extend_without_widths {C} (DEFAULT_COLOR : C) (MATERIAL_TYPE_PBR : Z)
    (options : GreasedLineMeshBuilderOptions.t C)
    (materialOptions : option (GreasedLineMaterialBuilderOptions.t C))
    (instance : GreasedLineMesh.t C) :
  GreasedLineMeshBuilderOptions.instance options = Some instance →
  GreasedLineMesh.widths instance = None →
  GreasedLineMesh.widths
    (CreateGreasedLine DEFAULT_COLOR MATERIAL_TYPE_PBR options materialOptions)
  = Some
      (CompleteGreasedLineWidthTable
         (allPoints_length (GreasedLineMeshBuilderOptions.points options))
         (default [] (GreasedLineMeshBuilderOptions.widths options))
         (default WIDTH_DISTRIBUTION_START
            (GreasedLineMeshBuilderOptions.widthDistribution options))
         1%float 1%float).
Proof.
  intros Hinstance Hwidths. unfold CreateGreasedLine.
  rewrite Hinstance, Hwidths.
  destruct (GreasedLineMaterialBuilderOptions.colors _); [|reflexivity].
  destruct (_ || _); [|reflexivity]. cbn.
  destruct (GreasedLineMesh.greasedLineMaterial instance) as [m|];
    [|reflexivity].
  destruct (GreasedLinePluginMaterial.colors m); reflexivity.
Qed.

Lemma extend_without_widths_witness :
  let instance : GreasedLineMesh.t Color3 :=
    GreasedLineMesh.Build [[(0, 0, 0)]%float] None false None None in
  let options :=
    GreasedLineMeshBuilderOptions.Build
      [[(1, 0, 0); (2, 0, 0)]%float] (Some [3; 4]%float) None false
      (Some instance) in
  GreasedLineMesh.widths (CreateGreasedLine White 1 options None)
  = Some [Some 3; Some 4; Some 1; Some 1]%float.
Proof.
  intros instance options.
  rewrite (extend_without_widths White 1 options None instance);
    reflexivity.
Defined.

(** X26. Extend mode with colors supplied, on an instance with a
    StandardMaterial or a PBRMaterial whose plugin holds a color table: the
    colors completed for the batch alone are appended to that table, and the
    whole is pushed to the plugin as one update that carries the lazy flag of
    the instance. *)
Theorem extend_merges_colors_update {C} (DEFAULT_COLOR : C)
    (MATERIAL_TYPE_PBR : Z)
    (options : GreasedLineMeshBuilderOptions.t C)
    (materialOptions : GreasedLineMaterialBuilderOptions.t C)
    (instance : GreasedLineMesh.t C) (colors : list C)
    (plugin : GreasedLinePluginMaterial.t C)
    (currentColors : list (option C)) :
  GreasedLineMeshBuilderOptions.instance options = Some instance →
  GreasedLineMaterialBuilderOptions.colors materialOptions = Some colors →
  GreasedLineMesh.material instance = Some StandardMaterial
  ∨ GreasedLineMesh.material instance = Some PBRMaterial →
  GreasedLineMesh.greasedLineMaterial instance = Some plugin →
  GreasedLinePluginMaterial.colors plugin = Some currentColors →
  let newColors :=
    currentColors
    ++ CompleteGreasedLineColorTable
         (allPoints_length (GreasedLineMeshBuilderOptions.points options))
         colors
         (default COLOR_DISTRIBUTION_START
            (GreasedLineMaterialBuilderOptions.colorDistribution
               materialOptions))
         (default DEFAULT_COLOR
            (GreasedLineMaterialBuilderOptions.color materialOptions)) in
  GreasedLineMesh.greasedLineMaterial
    (CreateGreasedLine DEFAULT_COLOR MATERIAL_TYPE_PBR options
       (Some materialOptions))
  = Some
      (GreasedLinePluginMaterial.Build (Some newColors)
         ((newColors, GreasedLineMesh.lazy instance)
          :: GreasedLinePluginMaterial.updates plugin)).
Proof.
  intros Hinstance Hcolors Hmat Hplugin Hcurrent. unfold CreateGreasedLine.
  rewrite Hinstance. cbn [default from_option id]. rewrite Hcolors.
  destruct instance as [ps ws lz mat pl].
  cbn -[CompleteGreasedLineWidthTable CompleteGreasedLineColorTable] in *.
  subst pl.
  destruct Hmat as [-> | ->]; destruct ws;
    cbn -[CompleteGreasedLineWidthTable CompleteGreasedLineColorTable];
    rewrite Hcurrent; reflexivity.
Qed.

Lemma extend_merges_colors_update_witness :
  let plugin := GreasedLinePluginMaterial.Build (Some [Some Red]) [] in
  let instance : GreasedLineMesh.t Color3 :=
    GreasedLineMesh.Build
      [[(0, 0, 0)]%float] (Some [Some 1; Some 1]%float) true
      (Some PBRMaterial) (Some plugin) in
  let options :=
    GreasedLineMeshBuilderOptions.Build
      [[(1, 0, 0); (2, 0, 0)]%float] None None false (Some instance) in
  let materialOptions :=
    GreasedLineMaterialBuilderOptions.Build
      None None None None (Some [Green]) in
  GreasedLineMesh.greasedLineMaterial
    (CreateGreasedLine White 1 options (Some materialOptions))
  = Some (GreasedLinePluginMaterial.Build
            (Some [Some Red; Some Green; Some White])
            [([Some Red; Some Green; Some White], true)]).
Proof.
  intros plugin instance options materialOptions.
  rewrite (extend_merges_colors_update White 1 options materialOptions
             instance [Green] plugin [Some Red]);
    [reflexivity | reflexivity | reflexivity | by right | reflexivity
    | reflexivity].
Defined.

(** X27. Extend mode leaves the plugin of the instance as it is when no
    colors are supplied, when the instance has no plugin, and when the plugin
    holds no color table: in the last case the supplied colors are dropped
    although the material is recognized. *)
Theorem extend_keeps_plugin {C} (DEFAULT_COLOR : C) (MATERIAL_TYPE_PBR : Z)
    (options : GreasedLineMeshBuilderOptions.t C)
    (materialOptions : option (GreasedLineMaterialBuilderOptions.t C))
    (instance : GreasedLineMesh.t C) :
  GreasedLineMeshBuilderOptions.instance options = Some instance →
  materialOptions ≫= GreasedLineMaterialBuilderOptions.colors = None
  ∨ GreasedLineMesh.greasedLineMaterial instance
      ≫= GreasedLinePluginMaterial.colors = None →
  GreasedLineMesh.greasedLineMaterial
    (CreateGreasedLine DEFAULT_COLOR MATERIAL_TYPE_PBR options materialOptions)
  = GreasedLineMesh.greasedLineMaterial instance.
Proof.
  intros Hinstance Hcase. unfold CreateGreasedLine. rewrite Hinstance.
  destruct instance as [ps ws lz mat pl].
  destruct Hcase as [Hnone | Hnone].
  - destruct materialOptions as [mo|]; cbn in Hnone;
      cbn [default from_option id GreasedLineMaterialBuilderOptions.colors];
      [rewrite Hnone|]; by destruct ws.
  - cbn in Hnone.
    destruct (GreasedLineMaterialBuilderOptions.colors _);
      cbn -[CompleteGreasedLineWidthTable CompleteGreasedLineColorTable];
      destruct ws;
      cbn -[CompleteGreasedLineWidthTable CompleteGreasedLineColorTable];
      try done;
      destruct (_ || _); try done;
      destruct pl as [[[cs|] us]|]; done.
Qed.

Lemma extend_keeps_plugin_witness :
  let plugin : GreasedLinePluginMaterial.t Color3 :=
    GreasedLinePluginMaterial.Build None [] in
  let instance :=
    GreasedLineMesh.Build
      [[(0, 0, 0)]%float] (Some [Some 1; Some 1]%float) false
      (Some StandardMaterial) (Some plugin) in
  let options :=
    GreasedLineMeshBuilderOptions.Build
      [[(1, 0, 0)]%float] None None false (Some instance) in
  let materialOptions :=
    GreasedLineMaterialBuilderOptions.Build
      None None None None (Some [Green]) in
  GreasedLineMesh.greasedLineMaterial
    (CreateGreasedLine White 1 options (Some materialOptions))
  = Some plugin.
Proof.
  intros plugin instance options materialOptions.
  apply (extend_keeps_plugin White 1 options (Some materialOptions) instance);
    [reflexivity | right; reflexivity].
Defined.

(** START over an empty table: every point gets the default pair. *)
Lemma width_table_default_fill {A} (pointCount : Z) (d : A) :
  0 <= pointCount →
  CompleteGreasedLineWidthTable pointCount [] WIDTH_DISTRIBUTION_START d d
  = replicate (2 * Z.to_nat pointCount) (Some d).
Proof.
  intros Hpc. destruct (Z.eq_dec pointCount 0) as [-> | Hne].
  - by rewrite width_table_exact.
  - unfold CompleteGreasedLineWidthTable.
    destruct (width_table_short pointCount (@nil A) WIDTH_DISTRIBUTION_START
                d d) as [-> ->]; [simpl length; lia|].
    policy_branch. rewrite copy_whole_pairs by (by exists 0).
    rewrite missing_pairs. change (Z.of_nat (length (@nil A)) / 2) with 0.
    rewrite Z.sub_0_r. apply concat_replicate_pair.
Qed.

(** START over a table of whole pairs gives two entries per point. *)
Lemma width_table_start_length {A} (pointCount : Z) (widths : list A)
    (dU dL : A) :
  0 <= pointCount → Z.Even (Z.of_nat (length widths)) →
  Z.of_nat
    (length
       (CompleteGreasedLineWidthTable pointCount widths
          WIDTH_DISTRIBUTION_START dU dL))
  = 2 * pointCount.
Proof.
  intros Hpc Heven.
  destruct (Z.lt_trichotomy (2 * pointCount) (Z.of_nat (length widths)))
    as [Hlong | [Hexact | Hshort]].
  - rewrite width_table_long by done. unfold JS.slice0.
    destruct (pointCount * 2 <? 0) eqn:E; [lia|].
    rewrite length_fmap, length_take. lia.
  - rewrite width_table_exact by done. rewrite length_fmap. lia.
  - unfold CompleteGreasedLineWidthTable.
    destruct (width_table_short pointCount widths WIDTH_DISTRIBUTION_START
                dU dL Hshort) as [-> ->].
    policy_branch. rewrite length_app, Nat2Z.inj_add.
    rewrite length_pairs_of, length_missing_pairs by done.
    destruct Heven as [k Hk]. rewrite Hk.
    replace ((2 * k + 1) / 2) with k by (Z.div_mod_to_equations; lia).
    replace (2 * k / 2) with k by (Z.div_mod_to_equations; lia). lia.
Qed.

(** X28. Create mode without [widths], under the default distribution:
    every point of the new mesh gets the width pair 1, 1. *)
Theorem create_default_widths {C} (DEFAULT_COLOR : C) (MATERIAL_TYPE_PBR : Z)
    (options : GreasedLineMeshBuilderOptions.t C)
    (materialOptions : option (GreasedLineMaterialBuilderOptions.t C)) :
  GreasedLineMeshBuilderOptions.instance options = None →
  GreasedLineMeshBuilderOptions.widths options = None →
  GreasedLineMeshBuilderOptions.widthDistribution options = None
  ∨ GreasedLineMeshBuilderOptions.widthDistribution options
    = Some WIDTH_DISTRIBUTION_START →
  GreasedLineMesh.widths
    (CreateGreasedLine DEFAULT_COLOR MATERIAL_TYPE_PBR options materialOptions)
  = Some
      (replicate
         (2 * length (concat (GreasedLineMeshBuilderOptions.points options)))
         (Some 1%float)).
Proof.
  intros Hinstance Hwidths Hdist. unfold CreateGreasedLine.
  rewrite Hinstance, Hwidths.
  assert (Htable :
    CompleteGreasedLineWidthTable
      (allPoints_length (GreasedLineMeshBuilderOptions.points options))
      (default [] None)
      (default WIDTH_DISTRIBUTION_START
         (GreasedLineMeshBuilderOptions.widthDistribution options))
      1%float 1%float
    = replicate
        (2 * length (concat (GreasedLineMeshBuilderOptions.points options)))
        (Some 1%float)).
  { destruct Hdist as [-> | ->]; cbn [default from_option id];
      rewrite allPoints_length_sum, width_table_default_fill by lia;
      by rewrite Nat2Z.id. }
  rewrite Htable.
  destruct (GreasedLineMaterialBuilderOptions.colors _);
    by destruct (default true _).
Qed.

Lemma create_default_widths_witness :
  let options : GreasedLineMeshBuilderOptions.t Color3 :=
    GreasedLineMeshBuilderOptions.Build
      [[(0, 0, 0); (1, 0, 0)]; [(2, 0, 0)]]%float None None false None in
  GreasedLineMesh.widths (CreateGreasedLine White 1 options None)
  = Some (replicate 6 (Some 1%float)).
Proof.
  intros options.
  apply (create_default_widths White 1 options None);
    [reflexivity | reflexivity | by left].
Defined.

(** X29. Extend mode keeps two widths per point: when the instance holds two
    widths for each of its points and the batch comes with a table of whole
    pairs (or none) under the default distribution, the extended instance
    holds two widths for each of its points again. *)
Theorem extend_keeps_two_widths_per_point {C} (DEFAULT_COLOR : C)
    (MATERIAL_TYPE_PBR : Z)
    (options : GreasedLineMeshBuilderOptions.t C)
    (materialOptions : option (GreasedLineMaterialBuilderOptions.t C))
    (instance : GreasedLineMesh.t C) (currentWidths : list (option float)) :
  GreasedLineMeshBuilderOptions.instance options = Some instance →
  GreasedLineMesh.widths instance = Some currentWidths →
  length currentWidths
  = (2 * length (concat (GreasedLineMesh.points instance)))%nat →
  Z.Even
    (Z.of_nat
       (length (default [] (GreasedLineMeshBuilderOptions.widths options)))) →
  GreasedLineMeshBuilderOptions.widthDistribution options = None
  ∨ GreasedLineMeshBuilderOptions.widthDistribution options
    = Some WIDTH_DISTRIBUTION_START →
  let result :=
    CreateGreasedLine DEFAULT_COLOR MATERIAL_TYPE_PBR options materialOptions
  in
  ∃ newWidths,
    GreasedLineMesh.widths result = Some newWidths
    ∧ length newWidths
      = (2 * length (concat (GreasedLineMesh.points result)))%nat.
Proof.
  intros Hinstance Hwidths Hcurrent Heven Hdist result.
  pose proof (allPoints_length_sum
                (GreasedLineMeshBuilderOptions.points options)) as Hcount.
  pose proof (width_table_start_length
                (allPoints_length
                   (GreasedLineMeshBuilderOptions.points options))
                (default [] (GreasedLineMeshBuilderOptions.widths options))
                1%float 1%float) as Htable.
  rewrite Hcount in Htable. specialize (Htable ltac:(lia) Heven).
  assert (Hdefault :
    default WIDTH_DISTRIBUTION_START
      (GreasedLineMeshBuilderOptions.widthDistribution options)
    = WIDTH_DISTRIBUTION_START) by (by destruct Hdist as [-> | ->]).
  eexists. split.
  - unfold result. unfold CreateGreasedLine.
    rewrite Hinstance, Hwidths, Hdefault, Hcount.
    destruct (GreasedLineMaterialBuilderOptions.colors _); [|reflexivity].
    destruct (_ || _); [|reflexivity].
    cbn -[CompleteGreasedLineWidthTable CompleteGreasedLineColorTable].
    destruct (GreasedLineMesh.greasedLineMaterial instance) as [m|];
      [|reflexivity].
    destruct (GreasedLinePluginMaterial.colors m); reflexivity.
  - assert (Hpoints :
      GreasedLineMesh.points result
      = GreasedLineMesh.points instance
        ++ GreasedLineMeshBuilderOptions.points options).
    { unfold result, CreateGreasedLine. rewrite Hinstance.
      destruct instance as [ps ws lz mat plugin].
      cbn -[CompleteGreasedLineWidthTable CompleteGreasedLineColorTable].
      destruct (GreasedLineMaterialBuilderOptions.colors _);
        destruct ws;
        cbn -[CompleteGreasedLineWidthTable CompleteGreasedLineColorTable];
        try done;
        destruct (_ || _); try done;
        destruct plugin as [[[cs|] us]|]; done. }
    rewrite Hpoints, concat_app, !length_app. lia.
Qed.

Lemma extend_keeps_two_widths_per_point_witness :
  let instance : GreasedLineMesh.t Color3 :=
    GreasedLineMesh.Build
      [[(0, 0, 0); (1, 0, 0)]%float]
      (Some [Some 1; Some 1; Some 2; Some 2]%float) false None None in
  let options :=
    GreasedLineMeshBuilderOptions.Build
      [[(2, 0, 0); (3, 0, 0)]%float] (Some [3; 3]%float) None false
      (Some instance) in
  let result := CreateGreasedLine White 1 options None in
  ∃ newWidths,
    GreasedLineMesh.widths result = Some newWidths
    ∧ length newWidths
      = (2 * length (concat (GreasedLineMesh.points result)))%nat.
Proof.
  intros instance options.
  apply (extend_keeps_two_widths_per_point White 1 options None instance
           [Some 1; Some 1; Some 2; Some 2]%float);
    [reflexivity | reflexivity | reflexivity | by exists 1 | by left].
Defined.

(** X30. Extend mode keeps one color per point under START and REPEAT (START
    being the default): when the plugin of a StandardMaterial or PBRMaterial
    instance holds one color for each point of the instance, it holds one
    color for each point of the extended instance. *)
Theorem extend_keeps_one_color_per_point {C} (DEFAULT_COLOR : C)
    (MATERIAL_TYPE_PBR : Z)
    (options : GreasedLineMeshBuilderOptions.t C)
    (materialOptions : GreasedLineMaterialBuilderOptions.t C)
    (instance : GreasedLineMesh.t C) (colors : list C)
    (plugin : GreasedLinePluginMaterial.t C)
    (currentColors : list (option C)) :
  GreasedLineMeshBuilderOptions.instance options = Some instance →
  GreasedLineMaterialBuilderOptions.colors materialOptions = Some colors →
  GreasedLineMesh.material instance = Some StandardMaterial
  ∨ GreasedLineMesh.material instance = Some PBRMaterial →
  GreasedLineMesh.greasedLineMaterial instance = Some plugin →
  GreasedLinePluginMaterial.colors plugin = Some currentColors →
  length currentColors = length (concat (GreasedLineMesh.points instance)) →
  GreasedLineMaterialBuilderOptions.colorDistribution materialOptions = None
  ∨ GreasedLineMaterialBuilderOptions.colorDistribution materialOptions
    = Some COLOR_DISTRIBUTION_START
  ∨ GreasedLineMaterialBuilderOptions.colorDistribution materialOptions
    = Some COLOR_DISTRIBUTION_REPEAT →
  let result :=
    CreateGreasedLine DEFAULT_COLOR MATERIAL_TYPE_PBR options
      (Some materialOptions) in
  ∃ newPlugin newColors,
    GreasedLineMesh.greasedLineMaterial result = Some newPlugin
    ∧ GreasedLinePluginMaterial.colors newPlugin = Some newColors
    ∧ length newColors = length (concat (GreasedLineMesh.points result)).
Proof.
  intros Hinstance Hcolors Hmat Hplugin Hcurrent Hlen Hdist result.
  pose proof (allPoints_length_sum
                (GreasedLineMeshBuilderOptions.points options)) as Hcount.
  pose proof (color_table_length_full
                (allPoints_length
                   (GreasedLineMeshBuilderOptions.points options))
                colors
                (default COLOR_DISTRIBUTION_START
                   (GreasedLineMaterialBuilderOptions.colorDistribution
                      materialOptions))
                (default DEFAULT_COLOR
                   (GreasedLineMaterialBuilderOptions.color materialOptions)))
    as Htable.
  rewrite Hcount in Htable. specialize (Htable ltac:(lia)).
  assert (Hpolicy :
    default COLOR_DISTRIBUTION_START
      (GreasedLineMaterialBuilderOptions.colorDistribution materialOptions)
    = COLOR_DISTRIBUTION_START
    ∨ default COLOR_DISTRIBUTION_START
        (GreasedLineMaterialBuilderOptions.colorDistribution materialOptions)
      = COLOR_DISTRIBUTION_REPEAT).
  { destruct Hdist as [-> | [-> | ->]]; auto. }
  specialize (Htable ltac:(right; exact Hpolicy)).
  unfold result, CreateGreasedLine.
  rewrite Hinstance. cbn [default from_option id]. rewrite Hcolors, Hcount.
  destruct instance as [ps ws lz mat pl].
  cbn -[CompleteGreasedLineWidthTable CompleteGreasedLineColorTable] in *.
  subst pl.
  destruct Hmat as [-> | ->]; destruct ws;
    cbn -[CompleteGreasedLineWidthTable CompleteGreasedLineColorTable];
    rewrite Hcurrent;
    cbn -[CompleteGreasedLineWidthTable CompleteGreasedLineColorTable];
    (eexists; eexists; split; [reflexivity|]; split; [reflexivity|]);
    rewrite concat_app, !length_app; lia.
Qed.

Lemma extend_keeps_one_color_per_point_witness :
  let plugin := GreasedLinePluginMaterial.Build (Some [Some Red]) [] in
  let instance : GreasedLineMesh.t Color3 :=
    GreasedLineMesh.Build
      [[(0, 0, 0)]%float] (Some [Some 1; Some 1]%float) false
      (Some StandardMaterial) (Some plugin) in
  let options :=
    GreasedLineMeshBuilderOptions.Build
      [[(1, 0, 0); (2, 0, 0)]%float] None None false (Some instance) in
  let materialOptions :=
    GreasedLineMaterialBuilderOptions.Build
      None None None None (Some [Green]) in
  let result := CreateGreasedLine White 1 options (Some materialOptions) in
  ∃ newPlugin newColors,
    GreasedLineMesh.greasedLineMaterial result = Some newPlugin
    ∧ GreasedLinePluginMaterial.colors newPlugin = Some newColors
    ∧ length newColors = length (concat (GreasedLineMesh.points result)).
Proof.
  intros plugin instance options materialOptions.
  apply (extend_keeps_one_color_per_point White 1 options materialOptions
           instance [Green] plugin [Some Red]);
    [reflexivity | reflexivity | by left | reflexivity | reflexivity
    | reflexivity | by left].
Defined.
